(** * milaidy: the self-update subsystem

    A shallow embedding of [src/services/update-checker.ts] and
    [src/services/self-updater.ts], and the properties of the update
    check (cache gate, registry lookup, persistence) and of the
    self-updater (install-method detection, command table, execution).

    Conventions.
    - A JavaScript string is the [string] of its UTF-8 bytes, the form in
      which the environment, a child process and a string literal of this
      file hold it. White space is the whole of the ECMAScript WhiteSpace
      and LineTerminator sets, each code point by its encoding; the case
      mapping is that of the ASCII letters, the only one that can produce
      the ASCII words the code compares with.
    - [undefined]/[null] are [None].
    - Code that reads the environment, the clock, the network, the disk or
      a child process runs in the monad [Eff W] over an explicit world
      [W]; a JavaScript exception is the completion [Throw]. *)

From Stdlib Require Import ZArith QArith Ascii String List Lia DecimalString.
From stdpp Require Import base option gmap strings.

Local Open Scope Z_scope.
Local Open Scope string_scope.

(** ** JavaScript prelude *)

Module Js.

(** *** Strings *)

(** The code points that [String.prototype.trim] strips are those of
    WhiteSpace (TAB, VT, FF, ZWNBSP and the space separators) and of
    LineTerminator (LF, CR, LS, PS). They are recognised by the bytes of
    their UTF-8 encoding, which has one, two or three of them. *)

(** U+0009 TAB, U+000A LF, U+000B VT, U+000C FF, U+000D CR, U+0020 SP. *)
Definition oneByteWhiteSpace (a : N) : bool :=
  match a with
  | 9%N | 10%N | 11%N | 12%N | 13%N | 32%N => true
  | _ => false
  end.

(** U+00A0 NBSP. *)
Definition twoByteWhiteSpace (a b : N) : bool :=
  ((a =? 194) && (b =? 160))%N.

(** U+1680; U+2000 to U+200A, U+2028 LS, U+2029 PS, U+202F; U+205F;
    U+3000; U+FEFF ZWNBSP. *)
Definition threeByteWhiteSpace (a b c : N) : bool :=
  match a, b with
  | 225%N, 154%N => (c =? 128)%N
  | 226%N, 128%N =>
      ((128 <=? c) && (c <=? 138) || (c =? 168) || (c =? 169) || (c =? 175))%N
  | 226%N, 129%N => (c =? 159)%N
  | 227%N, 128%N => (c =? 128)%N
  | 239%N, 187%N => (c =? 191)%N
  | _, _ => false
  end.

(** [s.trimStart()] *)
Fixpoint trimStart (s : string) : string :=
  match s with
  | EmptyString => EmptyString
  | String c1 r1 =>
      if oneByteWhiteSpace (N_of_ascii c1) then trimStart r1
      else
        match r1 with
        | EmptyString => s
        | String c2 r2 =>
            if twoByteWhiteSpace (N_of_ascii c1) (N_of_ascii c2) then trimStart r2
            else
              match r2 with
              | EmptyString => s
              | String c3 r3 =>
                  if threeByteWhiteSpace (N_of_ascii c1) (N_of_ascii c2)
                       (N_of_ascii c3)
                  then trimStart r3
                  else s
              end
        end
  end.

(** [s.trimEnd()]: the string is cut where what is left of it is white
    space only. *)
Fixpoint trimEnd (s : string) : string :=
  match s with
  | EmptyString => EmptyString
  | String c rest =>
      match trimStart s with
      | EmptyString => EmptyString
      | _ => String c (trimEnd rest)
      end
  end.

(** [s.trim()] *)
Definition trim (s : string) : string := trimEnd (trimStart s).

(** The string of a sequence of bytes. *)
Definition ofBytes (bytes : list N) : string :=
  fold_right (fun b rest => String (ascii_of_N b) rest) EmptyString bytes.

(** The twenty-five code points of WhiteSpace and LineTerminator, in
    UTF-8. *)
Definition whiteSpaces : list string :=
  map ofBytes
    [ [9]; [10]; [11]; [12]; [13]; [32];
      [194; 160];
      [225; 154; 128];
      [226; 128; 128]; [226; 128; 129]; [226; 128; 130]; [226; 128; 131];
      [226; 128; 132]; [226; 128; 133]; [226; 128; 134]; [226; 128; 135];
      [226; 128; 136]; [226; 128; 137]; [226; 128; 138];
      [226; 128; 168]; [226; 128; 169]; [226; 128; 175];
      [226; 129; 159];
      [227; 128; 128];
      [239; 187; 191] ]%N.

(** Code points that look like white space and are not: U+0085 NEL,
    U+180E, U+200B ZWSP, U+2060 WJ; and the byte A0 on its own, which is
    no code point. *)
Definition notWhiteSpaces : list string :=
  map ofBytes
    [ [194; 133]; [225; 160; 142]; [226; 128; 139]; [226; 129; 160]; [160] ]%N.

(** U+00A0 NBSP. *)
Definition nbsp : string := ofBytes [194; 160]%N.

(** A byte that continues an encoding. *)
Definition continues (b : N) : bool := ((128 <=? b) && (b <=? 191))%N.

(** A letter of the ASCII alphabet. *)
Definition isLetter (c : ascii) : bool :=
  let n := N_of_ascii c in
  ((65 <=? n) && (n <=? 90) || (97 <=? n) && (n <=? 122))%N.

Fixpoint lettersOnly (s : string) : bool :=
  match s with
  | EmptyString => true
  | String c rest => isLetter c && lettersOnly rest
  end.

Definition lowerChar (c : ascii) : ascii :=
  let n := N_of_ascii c in
  if ((65 <=? n) && (n <=? 90))%N then ascii_of_N (n + 32) else c.

(** [s.toLowerCase()] *)
Fixpoint toLowerCase (s : string) : string :=
  match s with
  | EmptyString => EmptyString
  | String c rest => String (lowerChar c) (toLowerCase rest)
  end.

(** [s.startsWith(p)] *)
Definition startsWith (s p : string) : bool := String.prefix p s.

(** [s.includes(sub)] *)
Fixpoint includes (s sub : string) : bool :=
  String.prefix sub s
  || match s with
     | EmptyString => false
     | String _ rest => includes rest sub
     end.

(** The double quote character, as a string. *)
Definition quote : string := String (ascii_of_N 34) EmptyString.

(** Truthiness of a [string | null | undefined] value: only a non-empty
    string is truthy. *)
Definition truthy (v : option string) : bool :=
  match v with
  | Some s => negb (String.eqb s EmptyString)
  | None => false
  end.

(** [a.join(sep)] *)
Fixpoint join (sep : string) (parts : list string) : string :=
  match parts with
  | [] => EmptyString
  | [p] => p
  | p :: rest => p +:+ sep +:+ join sep rest
  end.

(** Decimal rendering of an integer Number, as in a template literal. *)
Definition showInt (z : Z) : string := NilZero.string_of_int (Z.to_int z).

(** *** Numbers

    The only arithmetic in this subsystem is on millisecond time stamps
    and second counts; [Finite] carries the exact rational value and
    [NaN] is what an Invalid Date yields. *)
Inductive number : Type :=
| NaN
| Finite (q : Q).

Definition sub (a b : number) : number :=
  match a, b with
  | Finite x, Finite y => Finite (x - y)
  | _, _ => NaN
  end.

(** The quotient by a non-zero divisor, the only one this code takes. *)
Definition div (a b : number) : number :=
  match a, b with
  | Finite x, Finite y => if Qeq_bool y 0 then NaN else Finite (x / y)
  | _, _ => NaN
  end.

(** [a < b]: false as soon as one side is [NaN]. *)
Definition lt (a b : number) : bool :=
  match a, b with
  | Finite x, Finite y => negb (Qle_bool y x)
  | _, _ => false
  end.

Definition ofZ (z : Z) : number := Finite (inject_Z z).

(** *** Completions and effects *)

Record Error : Type := mkError { name : string; message : string }.

Inductive Completion (A : Type) : Type :=
| Normal (a : A)
| Throw (e : Error).
Arguments Normal {A} a.
Arguments Throw {A} e.

(** A computation over a world [W]: it completes normally or abruptly
    and leaves a world behind in both cases. *)
Definition Eff (W A : Type) : Type := W -> Completion A * W.

Definition ret {W A} (a : A) : Eff W A := fun w => (Normal a, w).

Definition bind {W A B} (m : Eff W A) (k : A -> Eff W B) : Eff W B :=
  fun w =>
    match m w with
    | (Normal a, w') => k a w'
    | (Throw e, w') => (Throw e, w')
    end.

Definition throw {W A} (e : Error) : Eff W A := fun w => (Throw e, w).

(** [try { body } catch { handler }] *)
Definition try_catch {W A} (body : Eff W A) (handler : Error -> Eff W A) : Eff W A :=
  fun w =>
    match body w with
    | (Normal a, w') => (Normal a, w')
    | (Throw e, w') => handler e w'
    end.

(** [try { body } finally { cleanup }] with a cleanup that cannot throw. *)
Definition try_finally {W A} (body : Eff W A) (cleanup : W -> W) : Eff W A :=
  fun w => let '(c, w') := body w in (c, cleanup w').

Definition eval {W A} (m : Eff W A) (w : W) : Completion A := fst (m w).
Definition exec {W A} (m : Eff W A) (w : W) : W := snd (m w).

End Js.

Import Js.

#[global] Instance Eff_ret {W} : MRet (Eff W) := fun _ a => ret a.
#[global] Instance Eff_bind {W} : MBind (Eff W) := fun _ _ k m => bind m k.

(** ** [src/services/version-compat.ts] *)

Module VersionCompat.

Definition isDigit (c : ascii) : bool :=
  let n := N_of_ascii c in ((48 <=? n) && (n <=? 57))%N.

Fixpoint splitOn (sep : ascii) (s : string) : list string :=
  match s with
  | EmptyString => [EmptyString]
  | String c rest =>
      if Ascii.eqb c sep then EmptyString :: splitOn sep rest
      else match splitOn sep rest with
           | [] => [String c EmptyString]
           | field :: fields => String c field :: fields
           end
  end.

Fixpoint digitsValue (acc : N) (s : string) : option N :=
  match s with
  | EmptyString => Some acc
  | String c rest =>
      if isDigit c then digitsValue (acc * 10 + (N_of_ascii c - 48))%N rest
      else None
  end.

(** A numeric field: a non-empty run of decimal digits. *)
Definition numeric (s : string) : option N :=
  match s with
  | EmptyString => None
  | _ => digitsValue 0%N s
  end.

Record Semver : Type := mkSemver {
  major : N;
  minor : N;
  patch : N;
  prerelease : option (list string)
}.

(** Cuts [s] at its first hyphen. *)
Fixpoint cutPrerelease (s : string) : string * option string :=
  match s with
  | EmptyString => (EmptyString, None)
  | String c rest =>
      if Ascii.eqb c "-" then (EmptyString, Some rest)
      else let '(core, pre) := cutPrerelease rest in (String c core, pre)
  end.

Definition parseSemver (s : string) : option Semver :=
  let '(core, pre) := cutPrerelease s in
  match splitOn "." core with
  | [a; b; c] =>
      match numeric a, numeric b, numeric c with
      | Some x, Some y, Some z =>
          match pre with
          | None => Some (mkSemver x y z None)
          | Some EmptyString => None
          | Some p => Some (mkSemver x y z (Some (splitOn "." p)))
          end
      | _, _, _ => None
      end
  | _ => None
  end.

Definition compareField (a b : string) : comparison :=
  match numeric a, numeric b with
  | Some x, Some y => N.compare x y
  | _, _ => String.compare a b
  end.

Fixpoint compareFields (a b : list string) : comparison :=
  match a, b with
  | [], [] => Eq
  | [], _ :: _ => Lt
  | _ :: _, [] => Gt
  | x :: a', y :: b' =>
      match compareField x y with
      | Eq => compareFields a' b'
      | c => c
      end
  end.

Definition comparePrerelease (a b : option (list string)) : comparison :=
  match a, b with
  | None, None => Eq
  | None, Some _ => Gt
  | Some _, None => Lt
  | Some x, Some y => compareFields x y
  end.

Definition thenCompare (c : comparison) (next : comparison) : comparison :=
  match c with
  | Eq => next
  | _ => c
  end.

Definition sign (c : comparison) : Z :=
  match c with
  | Lt => -1
  | Eq => 0
  | Gt => 1
  end.

(** Modelled from the spec: [compareSemver] of
    [src/services/version-compat.ts], a file that is not among the
    sources. Section 4.1: dot-separated numeric major.minor.patch with
    an optional [-<prerelease>] suffix; null when either side does not
    parse; major, then minor, then patch numerically; a version without
    a prerelease is greater than the same triple with one; two
    prereleases are compared field by field, numeric fields numerically
    and the others lexically, a proper prefix sorting lower.  Where the
    section is silent (a numeric field against a non-numeric one), the
    fields are compared lexically. *)
Definition compareSemver (a b : string) : option Z :=
  match parseSemver a, parseSemver b with
  | Some va, Some vb =>
      Some (sign
              (thenCompare (N.compare (major va) (major vb))
                 (thenCompare (N.compare (minor va) (minor vb))
                    (thenCompare (N.compare (patch va) (patch vb))
                       (comparePrerelease (prerelease va) (prerelease vb))))))
  | _, _ => None
  end.

End VersionCompat.

(** ** [src/config/types.milaidy.ts] *)

Module ConfigTypes.

(** The union type ["stable" | "beta" | "nightly"]. *)
Inductive ReleaseChannel : Type :=
| Stable
| Beta
| Nightly.

#[global] Instance ReleaseChannel_eq_dec : EqDecision ReleaseChannel.
Proof. solve_decision. Defined.

(** The string a channel is at run time. *)
Definition channelName (c : ReleaseChannel) : string :=
  match c with
  | Stable => "stable"
  | Beta => "beta"
  | Nightly => "nightly"
  end.

(** Modelled from the spec: the table [CHANNEL_DIST_TAGS] of
    [src/config/types.milaidy.ts], a file that is not among the
    sources. Section 3: the channels stable, beta, nightly map one to
    one to the distribution tags latest, beta, nightly. *)
Definition CHANNEL_DIST_TAGS (c : ReleaseChannel) : string :=
  match c with
  | Stable => "latest"
  | Beta => "beta"
  | Nightly => "nightly"
  end.

(** Modelled from the spec: the interface [UpdateConfig] of
    [src/config/types.milaidy.ts]. Section 3: four optional fields. *)
Record UpdateConfig : Type := mkUpdateConfig {
  channel : option ReleaseChannel;
  lastCheckAt : option string;
  lastCheckVersion : option string;
  checkIntervalSeconds : option Z
}.

(** The whole configuration object: its [update] member and every other
    top-level member, kept by name. *)
Record MilaidyConfig : Type := mkMilaidyConfig {
  update : option UpdateConfig;
  otherMembers : gmap string string
}.

End ConfigTypes.

Import ConfigTypes.

(** ** [src/services/update-checker.ts] *)

Module UpdateChecker.

(** *** Constants *)

Definition PACKAGE_NAME : string := "milaidy".
Definition NPM_REGISTRY_URL : string := "https://registry.npmjs.org".

(** Default minimum seconds between registry checks. *)
Definition DEFAULT_CHECK_INTERVAL_SECONDS : Z := 14400.

(** HTTP timeout for registry requests (ms). *)
Definition REGISTRY_TIMEOUT_MS : Z := 8000.

(** *** Types *)

Record UpdateCheckResult : Type := mkUpdateCheckResult {
  updateAvailable : bool;
  currentVersion : string;
  latestVersion : option string;
  resultChannel : ReleaseChannel;
  distTag : string;
  cached : bool;
  error : option string
}.

Record CheckOptions : Type := mkCheckOptions { force : option bool }.

(** [!options?.force] *)
Definition notForced (options : option CheckOptions) : bool :=
  negb (default false (options ≫= force)).

(** *** The world the checker runs in *)

(** What [response.json()] parses to: [null], or a value whose
    ["dist-tags"] member is an object or is missing. *)
Inductive Packument : Type :=
| JsonNull
| JsonData (dist_tags : option (gmap string string)).

Inductive Body : Type :=
| Malformed
| Parsed (data : Packument).

(** A response: its [ok] flag, and the body with the time in ms it
    takes to arrive once the headers are in. *)
Record Response : Type := mkResponse {
  ok : bool;
  bodyAfter : Z;
  body : Body
}.

(** What the registry does with the request: nothing at all, a transport
    error after some ms, or response headers after some ms. *)
Inductive Network : Type :=
| Hangs
| Fails (after : Z) (e : Error)
| Responds (after : Z) (r : Response).

Inductive Event : Type :=
| Fetched (url accept : string)
| SaveCalled (cfg : MilaidyConfig).

Record World : Type := mkWorld {
  env : gmap string string;       (* process.env *)
  stored : MilaidyConfig;         (* the configuration file *)
  writable : bool;                (* whether a save succeeds *)
  clock : Z;                      (* ms since the epoch *)
  registry : Network;
  timer : option Z;               (* when the pending abort timer fires *)
  events : list Event             (* most recent first *)
}.

Definition setStored (cfg : MilaidyConfig) (w : World) : World :=
  mkWorld (env w) cfg (writable w) (clock w) (registry w) (timer w) (events w).
Definition setClock (t : Z) (w : World) : World :=
  mkWorld (env w) (stored w) (writable w) t (registry w) (timer w) (events w).
Definition setTimer (t : option Z) (w : World) : World :=
  mkWorld (env w) (stored w) (writable w) (clock w) (registry w) t (events w).
Definition record (e : Event) (w : World) : World :=
  mkWorld (env w) (stored w) (writable w) (clock w) (registry w) (timer w)
          (e :: events w).

Definition isFetch (e : Event) : bool :=
  match e with
  | Fetched _ _ => true
  | SaveCalled _ => false
  end.

Definition isSave (e : Event) : bool :=
  match e with
  | Fetched _ _ => false
  | SaveCalled _ => true
  end.

(** Number of network calls, and of save calls, made so far. *)
Definition fetchCount (w : World) : nat := length (List.filter isFetch (events w)).
Definition saveCount (w : World) : nat := length (List.filter isSave (events w)).

(** *** Imports and globals *)

Definition AbortError : Error := mkError "AbortError" "This operation was aborted".
Definition SyntaxError : Error := mkError "SyntaxError" "Unexpected token in JSON".
Definition TypeError : Error :=
  mkError "TypeError" "Cannot read properties of null".
Definition WriteError : Error := mkError "Error" "cannot write the configuration".

Definition loadMilaidyConfig : Eff World MilaidyConfig :=
  fun w => (Normal (stored w), w).

Definition saveMilaidyConfig (cfg : MilaidyConfig) : Eff World unit :=
  fun w =>
    let w1 := record (SaveCalled cfg) w in
    if writable w then (Normal tt, setStored cfg w1) else (Throw WriteError, w1).

(** [process.env[name]] *)
Definition process_env (name : string) : Eff World (option string) :=
  fun w => (Normal (env w !! name), w).

(** [Date.now()] *)
Definition Date_now : Eff World Z := fun w => (Normal (clock w), w).

(** [new AbortController()] with [setTimeout(() => controller.abort(), ms)]:
    the signal is identified with the instant at which it aborts. *)
Definition abortAfter (ms : Z) : Eff World Z :=
  fun w => let deadline := clock w + ms in (Normal deadline, setTimer (Some deadline) w).

(** [clearTimeout(timer)] *)
Definition clearTimeout (w : World) : World := setTimer None w.

(** [fetch(url, { headers: { Accept }, signal })]. A timer that is due
    runs before the network callback, so the request wins only when it
    settles strictly before the signal aborts. *)
Definition fetch (url accept : string) (signal : Z) : Eff World Response :=
  fun w =>
    let w1 := record (Fetched url accept) w in
    match registry w with
    | Hangs => (Throw AbortError, setClock signal w1)
    | Fails after e =>
        if Z.ltb (clock w + after) signal then (Throw e, setClock (clock w + after) w1)
        else (Throw AbortError, setClock signal w1)
    | Responds after r =>
        if Z.ltb (clock w + after) signal then (Normal r, setClock (clock w + after) w1)
        else (Throw AbortError, setClock signal w1)
    end.

(** [response.json()]; the body stream stays tied to the signal of the
    request. *)
Definition json (response : Response) (signal : Z) : Eff World Packument :=
  fun w =>
    if Z.ltb (clock w + bodyAfter response) signal then
      let w1 := setClock (clock w + bodyAfter response) w in
      match body response with
      | Malformed => (Throw SyntaxError, w1)
      | Parsed data => (Normal data, w1)
      end
    else (Throw AbortError, setClock signal w).

(** [data["dist-tags"] ?? null] *)
Definition distTagsOf (data : Packument) : Eff World (option (gmap string string)) :=
  match data with
  | JsonNull => throw TypeError
  | JsonData tags => mret tags
  end.

(** *** Registry client *)

Definition fetchDistTags : Eff World (option (gmap string string)) :=
  let url := NPM_REGISTRY_URL +:+ "/" +:+ PACKAGE_NAME in
  signal ← abortAfter REGISTRY_TIMEOUT_MS;
  try_finally
    (try_catch
       (response ← fetch url "application/vnd.npm.install-v1+json" signal;
        if negb (ok response) then mret None
        else
          data ← json response signal;
          distTagsOf data)
       (fun _ => mret None))
    clearTimeout.

Section Checker.

(** [VERSION] of [src/runtime/version.ts] and [compareSemver] of
    [src/services/version-compat.ts], two imports whose files are not
    among the sources, and the two methods of the host's [Date] that
    the checker uses: the time value of [new Date(s)], [None] for an
    Invalid Date, and [toISOString] of a time value. *)
Variable VERSION : string.
Variable compareSemver : string -> string -> option Z.
Variable Date_parse : string -> option Z.
Variable Date_toISOString : Z -> string.

(** [new Date(s).getTime()] *)
Definition getTime (s : string) : number :=
  match Date_parse s with
  | Some t => ofZ t
  | None => NaN
  end.

(** *** Check interval gating *)

Definition shouldSkipCheck (updateConfig : option UpdateConfig) : Eff World bool :=
  match updateConfig with
  | None => mret false
  | Some uc =>
      match lastCheckAt uc with
      | None => mret false
      | Some at_ =>
          if String.eqb at_ EmptyString then mret false
          else
            let intervalSeconds :=
              default DEFAULT_CHECK_INTERVAL_SECONDS (checkIntervalSeconds uc) in
            let lastCheck := getTime at_ in
            now ← Date_now;
            let elapsed := div (sub (ofZ now) lastCheck) (ofZ 1000) in
            mret (lt elapsed (ofZ intervalSeconds))
      end
  end.

(** *** Public API *)

Definition resolveChannel (updateConfig : option UpdateConfig)
  : Eff World ReleaseChannel :=
  raw ← process_env "MILAIDY_UPDATE_CHANNEL";
  let envChannel := (fun s => toLowerCase (trim s)) <$> raw in
  if bool_decide (envChannel = Some "stable") then mret Stable
  else if bool_decide (envChannel = Some "beta") then mret Beta
  else if bool_decide (envChannel = Some "nightly") then mret Nightly
  else mret (default Stable (updateConfig ≫= channel)).

(** [{ ...config, update: { ...config.update, lastCheckAt, lastCheckVersion } }] *)
Definition withLastCheck (config : MilaidyConfig) (at_ version : string)
  : MilaidyConfig :=
  let old := default (mkUpdateConfig None None None None) (update config) in
  mkMilaidyConfig
    (Some (mkUpdateConfig (channel old) (Some at_) (Some version)
                          (checkIntervalSeconds old)))
    (otherMembers config).

Definition checkForUpdate (options : option CheckOptions)
  : Eff World UpdateCheckResult :=
  config ← loadMilaidyConfig;
  let updateConfig := update config in
  channel ← resolveChannel updateConfig;
  let distTag := CHANNEL_DIST_TAGS channel in
  skip ← (if notForced options then shouldSkipCheck updateConfig else mret false);
  if (skip : bool) then
    mret (mkUpdateCheckResult
            (match updateConfig ≫= lastCheckVersion with
             | Some version =>
                 if String.eqb version EmptyString then false
                 else Z.ltb (default 0 (compareSemver VERSION version)) 0
             | None => false
             end)
            VERSION
            (updateConfig ≫= lastCheckVersion)
            channel distTag true None)
  else
    distTags ← fetchDistTags;
    match distTags with
    | None =>
        mret (mkUpdateCheckResult false VERSION None channel distTag false
                (Some "Unable to reach the npm registry. Check your network connection."))
    | Some tags =>
        let unpublished :=
          mkUpdateCheckResult false VERSION None channel distTag false
            (Some ("No version found for dist-tag " +:+ quote +:+ distTag +:+ quote
                   +:+ ". The " +:+ quote +:+ channelName channel +:+ quote
                   +:+ " channel may not have any published releases yet.")) in
        match tags !! distTag with
        | None => mret unpublished
        | Some latestVersion =>
            if String.eqb latestVersion EmptyString then mret unpublished
            else
              let cmp := compareSemver VERSION latestVersion in
              let updateAvailable :=
                match cmp with
                | Some c => Z.ltb c 0
                | None => false
                end in
              now ← Date_now;
              let updatedConfig :=
                withLastCheck config (Date_toISOString now) latestVersion in
              _ ← try_catch (saveMilaidyConfig updatedConfig) (fun _ => mret tt);
              mret (mkUpdateCheckResult updateAvailable VERSION (Some latestVersion)
                      channel distTag false None)
        end
    end.

Definition fetchAllChannelVersions
  : Eff World (option string * option string * option string) :=
  distTags ← fetchDistTags;
  mret (distTags ≫= (.!! "latest"), distTags ≫= (.!! "beta"),
        distTags ≫= (.!! "nightly")).

End Checker.

End UpdateChecker.

(** ** [src/services/self-updater.ts] *)

Module SelfUpdater.

(** *** Types *)

Inductive InstallMethod : Type :=
| NpmGlobal
| BunGlobal
| PnpmGlobal
| Homebrew
| Snap
| Apt
| Flatpak
| LocalDev
| Unknown.

#[global] Instance InstallMethod_eq_dec : EqDecision InstallMethod.
Proof. solve_decision. Defined.

Record UpdateResult : Type := mkUpdateResult {
  success : bool;
  method : InstallMethod;
  command : string;
  previousVersion : string;
  newVersion : option string;
  error : option string
}.

(** The object [{ command, args }]. *)
Record CommandInfo : Type := mkCommandInfo {
  program : string;
  args : list string
}.

(** *** The host the updater runs on *)

(** How the promise of [runCommand] is settled: by the child's ['error']
    event, or by its ['close'] event with the exit code (none when a
    signal ended the child) after the chunks written to stderr. *)
Inductive ChildOutcome : Type :=
| SpawnError (err : Error)
| Closed (code : option Z) (stderrChunks : list string).

(** The parsed root [package.json]. *)
Record PackageJson : Type := mkPackageJson {
  devDependencies : option (gmap string string)
}.

Inductive Event : Type :=
| Executed (commandLine : string)
| Spawned (program : string) (args : list string)
| StderrWritten (chunk : string).

Record Host : Type := mkHost {
  shell : string -> Completion string;       (* execSync: stdout, or throws *)
  realpath : string -> Completion string;    (* fs.realpathSync *)
  rootPackage : Completion PackageJson;      (* read and parse ../../package.json *)
  child : string -> list string -> ChildOutcome;
  log : list Event                           (* most recent first *)
}.

Definition logged (es : list Event) (h : Host) : Host :=
  mkHost (shell h) (realpath h) (rootPackage h) (child h) (es ++ log h).

Definition isSpawn (e : Event) : bool :=
  match e with
  | Spawned _ _ => true
  | _ => false
  end.

(** Number of child processes spawned so far. *)
Definition spawnCount (h : Host) : nat := length (List.filter isSpawn (log h)).

Definition execSync (commandLine : string) : Eff Host string :=
  fun h => (shell h commandLine, logged [Executed commandLine] h).

Definition realpathSync (p : string) : Eff Host string :=
  fun h => (realpath h p, h).

Definition readRootPackage : Eff Host PackageJson :=
  fun h => (rootPackage h, h).

(** *** Installation method detection *)

Definition whichSync (binary : string) : Eff Host (option string) :=
  try_catch
    (out ← execSync ("which " +:+ binary);
     mret (Some (trim out)))
    (fun _ => mret None).

Definition isInsideNodeModules (filePath : string) : bool :=
  includes filePath "node_modules".

Definition isInsideHomebrew (filePath : string) : bool :=
  includes filePath "/Cellar/" || includes filePath "/homebrew/".

Definition isInsideSnap (filePath : string) : bool :=
  includes filePath "/snap/".

Definition isInsideFlatpak (filePath : string) : bool :=
  includes filePath "/flatpak/" || includes filePath "ai.milady.Milaidy".

Definition isLocalDev : Eff Host bool :=
  try_catch
    (content ← readRootPackage;
     mret (bool_decide (devDependencies content ≠ None)))
    (fun _ => mret false).

Definition detectInstallMethod : Eff Host InstallMethod :=
  milaidyBin ← whichSync "milaidy";
  if negb (truthy milaidyBin) then
    dev ← isLocalDev;
    mret (if (dev : bool) then LocalDev else Unknown)
  else
    let bin := default EmptyString milaidyBin in
    resolved ← try_catch (realpathSync bin) (fun _ => mret bin);
    if isInsideHomebrew resolved then mret Homebrew
    else if isInsideSnap resolved then mret Snap
    else if isInsideFlatpak resolved then mret Flatpak
    else if startsWith resolved "/usr/" && negb (isInsideNodeModules resolved)
    then mret Apt
    else if includes resolved "/.bun/" then mret BunGlobal
    else if includes resolved "/pnpm/" then mret PnpmGlobal
    else if isInsideNodeModules resolved then mret NpmGlobal
    else mret Unknown.

(** *** Update commands per install method *)

Definition buildUpdateCommand (method : InstallMethod) (channel : ReleaseChannel)
  : option CommandInfo :=
  let distTag := CHANNEL_DIST_TAGS channel in
  let spec :=
    match channel with
    | Stable => "milaidy@latest"
    | _ => "milaidy@" +:+ distTag
    end in
  match method with
  | NpmGlobal => Some (mkCommandInfo "npm" ["install"; "-g"; spec])
  | BunGlobal => Some (mkCommandInfo "bun" ["install"; "-g"; spec])
  | PnpmGlobal => Some (mkCommandInfo "pnpm" ["add"; "-g"; spec])
  | Homebrew => Some (mkCommandInfo "brew" ["upgrade"; "milaidy"])
  | Snap =>
      let snapChannel :=
        match channel with
        | Nightly => "edge"
        | Beta => "beta"
        | Stable => "stable"
        end in
      Some (mkCommandInfo "sudo"
              ["snap"; "refresh"; "milaidy"; "--channel=" +:+ snapChannel])
  | Apt =>
      Some (mkCommandInfo "sudo"
              ["apt-get"; "update"; "&&"; "sudo"; "apt-get"; "install";
               "--only-upgrade"; "milaidy"])
  | Flatpak => Some (mkCommandInfo "flatpak" ["update"; "ai.milady.Milaidy"])
  | LocalDev => None
  | Unknown => Some (mkCommandInfo "npm" ["install"; "-g"; spec])
  end.

(** *** Execute update *)

Definition runCommand (program : string) (args : list string)
  : Eff Host (Z * string) :=
  fun h =>
    let h1 := logged [Spawned program args] h in
    match child h program args with
    | SpawnError err => (Normal (1, message err), h1)
    | Closed code chunks =>
        (Normal (default 1 code, String.concat EmptyString chunks),
         logged (rev (map StderrWritten chunks)) h1)
    end.

Definition isWordChar (c : ascii) : bool :=
  let n := N_of_ascii c in
  ((48 <=? n) && (n <=? 57) || (65 <=? n) && (n <=? 90)
   || (97 <=? n) && (n <=? 122) || (n =? 95))%N.

(** The longest prefix of [s] whose characters satisfy [p], and the rest. *)
Fixpoint span (p : ascii -> bool) (s : string) : string * string :=
  match s with
  | EmptyString => (EmptyString, EmptyString)
  | String c rest =>
      if p c then let '(taken, others) := span p rest in (String c taken, others)
      else (EmptyString, s)
  end.

(** [\d+] at the head of [s]. *)
Definition digits1 (s : string) : option (string * string) :=
  match span VersionCompat.isDigit s with
  | (EmptyString, _) => None
  | found => Some found
  end.

(** [\.] at the head of [s]. *)
Definition dot (s : string) : option string :=
  match s with
  | String c rest => if Ascii.eqb c "." then Some rest else None
  | EmptyString => None
  end.

(** [(\d+\.\d+\.\d+(?:-[\w.]+)?)] anchored at the head of [s]. Every
    quantifier is greedy and none has anything to give back: a shorter
    run of digits is followed by a digit, not by a dot. *)
Definition matchAt (s : string) : option string :=
  '(a, s1) ← digits1 s;
  s2 ← dot s1;
  '(b, s3) ← digits1 s2;
  s4 ← dot s3;
  '(c, s5) ← digits1 s4;
  let core := a +:+ "." +:+ b +:+ "." +:+ c in
  Some
    match s5 with
    | String h rest =>
        if Ascii.eqb h "-" then
          match span (fun x => isWordChar x || Ascii.eqb x ".") rest with
          | (EmptyString, _) => core
          | (pre, _) => core +:+ "-" +:+ pre
          end
        else core
    | EmptyString => core
    end.

(** [output.match(/(\d+\.\d+\.\d+(?:-[\w.]+)?)/)?.[1] ?? null]: the
    leftmost match. *)
Fixpoint firstSemver (s : string) : option string :=
  match matchAt s with
  | Some found => Some found
  | None =>
      match s with
      | EmptyString => None
      | String _ rest => firstSemver rest
      end
  end.

Definition readPostUpdateVersion : Eff Host (option string) :=
  try_catch
    (raw ← execSync "milaidy --version";
     let output := trim raw in
     mret (firstSemver output))
    (fun _ => mret None).

Definition performUpdate (currentVersion : string) (channel : ReleaseChannel)
  : Eff Host UpdateResult :=
  method ← detectInstallMethod;
  let cmdInfo := buildUpdateCommand method channel in
  match cmdInfo with
  | None =>
      mret (mkUpdateResult false method EmptyString currentVersion None
              (Some (if decide (method = LocalDev)
                     then "Cannot auto-update a local development install. Use git pull instead."
                     else "Unable to determine update command for this installation method.")))
  | Some info =>
      let commandString := program info +:+ " " +:+ join " " (args info) in
      '(exitCode, stderr) ← runCommand (program info) (args info);
      if negb (Z.eqb exitCode 0) then
        mret (mkUpdateResult false method commandString currentVersion None
                (Some (if String.eqb stderr EmptyString
                       then "Update command exited with code " +:+ showInt exitCode +:+ "."
                       else stderr)))
      else
        newVersion ← readPostUpdateVersion;
        mret (mkUpdateResult true method commandString currentVersion newVersion None)
  end.

End SelfUpdater.

(** ** Vocabulary of the properties *)

Module CheckerSpec.

Import UpdateChecker.

(** The check is not answered from the cache: it is forced, or the
    interval gate of the source does not fire. *)
Definition reachesRegistry (Date_parse : string -> option Z)
    (options : option CheckOptions) (w : World) : Prop :=
  notForced options = false
  \/ eval (shouldSkipCheck Date_parse (update (stored w))) w = Normal false.

(** The ways a registry request fails: no answer, headers or body not in
    before the abort timer fires, a response that is not [ok], a
    transport error, a body that is not JSON. *)
Inductive RegistryFailure : Network -> Prop :=
| failure_hang : RegistryFailure Hangs
| failure_headers_late after r :
    REGISTRY_TIMEOUT_MS <= after -> RegistryFailure (Responds after r)
| failure_body_late after r :
    REGISTRY_TIMEOUT_MS <= after + bodyAfter r -> RegistryFailure (Responds after r)
| failure_status after r :
    ok r = false -> RegistryFailure (Responds after r)
| failure_transport after e : RegistryFailure (Fails after e)
| failure_malformed after r :
    body r = Malformed -> RegistryFailure (Responds after r).

(** The error text of the branch where the tag of the channel is not in
    the fetched map. *)
Definition noReleasesMessage (c : ReleaseChannel) : string :=
  "No version found for dist-tag " +:+ quote +:+ CHANNEL_DIST_TAGS c +:+ quote
  +:+ ". The " +:+ quote +:+ channelName c +:+ quote
  +:+ " channel may not have any published releases yet.".

Definition unreachableMessage : string :=
  "Unable to reach the npm registry. Check your network connection.".

(** The same world with another answer to whether a save succeeds. *)
Definition setWritable (b : bool) (w : World) : World :=
  mkWorld (env w) (stored w) b (clock w) (registry w) (timer w) (events w).

(** A host [Date] on the instants of the sample runs:
    2026-02-08T12:00:00.000Z and the instant 150 ms later. *)
Definition sampleDate_parse (s : string) : option Z :=
  if String.eqb s "2026-02-08T12:00:00.000Z" then Some 1770552000000
  else if String.eqb s "2026-02-08T12:00:00.150Z" then Some 1770552000150
  else None.

Definition sampleDate_toISOString (t : Z) : string :=
  if Z.eqb t 1770552000000 then "2026-02-08T12:00:00.000Z"
  else if Z.eqb t 1770552000150 then "2026-02-08T12:00:00.150Z"
  else "1970-01-01T00:00:00.000Z".

Definition sampleVersion : string := "2.0.0-alpha.7".

Definition sampleConfig (at_ : string) : MilaidyConfig :=
  mkMilaidyConfig
    (Some (mkUpdateConfig None (Some at_) (Some "2.1.0") (Some 3600)))
    {[ "logLevel" := "info" ]}.

Definition sampleWorld (cfg : MilaidyConfig) (variable : option string)
    (canWrite : bool) (net : Network) : World :=
  mkWorld (match variable with
           | Some v => {[ "MILAIDY_UPDATE_CHANNEL" := v ]}
           | None => ∅
           end)
          cfg canWrite 1770552000000 net None [].

Definition sampleTags : gmap string string :=
  {[ "latest" := "2.2.0"; "beta" := "2.2.0-beta.1" ]}.

Definition sampleRegistry : Network :=
  Responds 120 (mkResponse true 30 (Parsed (JsonData (Some sampleTags)))).

End CheckerSpec.

Module UpdaterSpec.

Import SelfUpdater.

(** The decision list of the path classification, highest priority
    first. *)
Definition classificationRules : list ((string -> bool) * InstallMethod) :=
  [ (fun p => includes p "/Cellar/" || includes p "/homebrew/", Homebrew);
    (fun p => includes p "/snap/", Snap);
    (fun p => includes p "/flatpak/" || includes p "ai.milady.Milaidy", Flatpak);
    (fun p => startsWith p "/usr/" && negb (includes p "node_modules"), Apt);
    (fun p => includes p "/.bun/", BunGlobal);
    (fun p => includes p "/pnpm/", PnpmGlobal);
    (fun p => includes p "node_modules", NpmGlobal) ].

(** First match wins; no match is [Unknown]. *)
Fixpoint firstMatch (rules : list ((string -> bool) * InstallMethod)) (p : string)
  : InstallMethod :=
  match rules with
  | [] => Unknown
  | (test, m) :: rest => if test p then m else firstMatch rest p
  end.

(** The path the classification looks at: the binary found by [which],
    through [realpathSync] when that succeeds. *)
Definition resolvedPath (h : Host) (bin : string) : string :=
  match realpath h bin with
  | Normal p => p
  | Throw _ => bin
  end.

(** The package spec of the npm, bun and pnpm commands. *)
Definition packageSpec (channel : ReleaseChannel) : string :=
  match channel with
  | Stable => "milaidy@latest"
  | Beta => "milaidy@beta"
  | Nightly => "milaidy@nightly"
  end.

(** The snap channel a release channel maps to. *)
Definition snapChannelOf (channel : ReleaseChannel) : string :=
  match channel with
  | Stable => "stable"
  | Beta => "beta"
  | Nightly => "edge"
  end.

(** The failing ways a child ends, with the exit code and the error
    text [runCommand] reports for each: a non-zero code, no code, an
    error at spawn time. *)
Inductive ChildFailed : ChildOutcome -> Z -> string -> Prop :=
| failed_code code chunks :
    code <> 0 ->
    ChildFailed (Closed (Some code) chunks) code (String.concat EmptyString chunks)
| failed_no_code chunks :
    ChildFailed (Closed None chunks) 1 (String.concat EmptyString chunks)
| failed_spawn err :
    ChildFailed (SpawnError err) 1 (message err).

Definition notFound : Error := mkError "Error" "Command failed".

(** A host where [which milaidy] prints [bin], the path resolves to
    [resolved], the update command ends as [outcome] and
    [milaidy --version] behaves as [version]. *)
Definition sampleHost (bin resolved : string) (outcome : ChildOutcome)
    (version : Completion string) : Host :=
  mkHost (fun commandLine =>
            if String.eqb commandLine "which milaidy" then Normal (bin +:+ " ")
            else if String.eqb commandLine "milaidy --version" then version
            else Throw notFound)
         (fun _ => Normal resolved)
         (Throw notFound)
         (fun _ _ => outcome)
         [].

End UpdaterSpec.

(** ** Vocabulary of the further properties *)

Module ExtraSpec.

Import UpdateChecker.

(** The member of the record of [fetchAllChannelVersions] for a channel. *)
Definition versionOf (c : ReleaseChannel)
    (versions : option string * option string * option string) : option string :=
  match versions, c with
  | (s, _, _), Stable => s
  | (_, b, _), Beta => b
  | (_, _, n), Nightly => n
  end.

(** The settings of a configuration that a check has no business with:
    the channel, the interval and every member other than [update]. *)
Definition settingsOf (cfg : MilaidyConfig)
  : option ReleaseChannel * option Z * gmap string string :=
  (update cfg ≫= channel, update cfg ≫= checkIntervalSeconds, otherMembers cfg).

(** The interval in force for a configuration, in seconds. *)
Definition intervalOf (cfg : MilaidyConfig) : Z :=
  default DEFAULT_CHECK_INTERVAL_SECONDS (update cfg ≫= checkIntervalSeconds).

(** Every character of [s] satisfies [p]. *)
Fixpoint allChars (p : ascii -> bool) (s : string) : bool :=
  match s with
  | EmptyString => true
  | String c rest => p c && allChars p rest
  end.

(** A non-empty run of decimal digits. *)
Definition isNumber (s : string) : Prop :=
  s <> EmptyString /\ allChars VersionCompat.isDigit s = true.

(** The check of the sample runs: version 2.0.0-alpha.7, the comparator
    of section 4.1 and the sample [Date]. *)
Definition sampleCheck (options : option CheckOptions) : Eff World UpdateCheckResult :=
  checkForUpdate CheckerSpec.sampleVersion VersionCompat.compareSemver
    CheckerSpec.sampleDate_parse CheckerSpec.sampleDate_toISOString options.

Definition forced : option CheckOptions := Some (mkCheckOptions (Some true)).

(** A world whose last check is the run's own instant, and one whose last
    check does not parse. *)
Definition freshWorld (net : Network) : World :=
  CheckerSpec.sampleWorld (CheckerSpec.sampleConfig "2026-02-08T12:00:00.000Z")
    None true net.

Definition staleWorld (net : Network) : World :=
  CheckerSpec.sampleWorld (CheckerSpec.sampleConfig "yesterday") None true net.

End ExtraSpec.

Module UpdaterExtraSpec.

Import SelfUpdater.

(** A character of the prerelease part of the version pattern: [[\w.]]. *)
Definition isWordOrDot (c : ascii) : bool := isWordChar c || Ascii.eqb c ".".

(** A host without [milaidy] on the PATH, running from a source tree whose
    root manifest is [manifest]. *)
Definition sourceHost (manifest : Completion PackageJson) : Host :=
  mkHost (fun _ => Throw UpdaterSpec.notFound)
         (fun p => Normal p)
         manifest
         (fun _ _ => Closed (Some 0) [])
         [].

(** The string does not go on with a character that satisfies [p]. *)
Definition stopsAt (p : ascii -> bool) (s : string) : Prop :=
  match s with
  | EmptyString => True
  | String c _ => p c = false
  end.

(** The shape of a match of the version pattern. *)
Definition versionShaped (v : string) : Prop :=
  exists a b c,
    ExtraSpec.isNumber a /\ ExtraSpec.isNumber b /\ ExtraSpec.isNumber c
    /\ (v = a +:+ "." +:+ b +:+ "." +:+ c
        \/ exists pre,
            pre <> EmptyString /\ ExtraSpec.allChars isWordOrDot pre = true
            /\ v = a +:+ "." +:+ b +:+ "." +:+ c +:+ "-" +:+ pre).
(** The texts of the two refusals and of the exit-code report. *)
Definition localDevMessage : string :=
  "Cannot auto-update a local development install. Use git pull instead.".

Definition noCommandMessage : string :=
  "Unable to determine update command for this installation method.".

Definition exitMessage (code : Z) (text : string) : string :=
  if String.eqb text EmptyString
  then "Update command exited with code " +:+ showInt code +:+ "."
  else text.

(** The command line shown for a command. *)
Definition commandLine (info : CommandInfo) : string :=
  program info +:+ " " +:+ join " " (args info).

(** What [milaidy --version] is read as on a host. *)
Definition versionRead (h : Host) : option string :=
  match shell h "milaidy --version" with
  | Normal out => firstSemver (trim out)
  | Throw _ => None
  end.

End UpdaterExtraSpec.

(** ** The comparator on the versions of the test suite *)

Module VersionCompatFacts.

Import VersionCompat.

Example compare_prerelease_below_next_minor :
  compareSemver "2.0.0-alpha.7" "2.1.0" = Some (-1).
Proof. reflexivity. Qed.

Example compare_prerelease_below_release :
  compareSemver "2.1.0-beta.1" "2.1.0" = Some (-1).
Proof. reflexivity. Qed.

Example compare_equal : compareSemver "2.0.0" "2.0.0" = Some 0.
Proof. reflexivity. Qed.

Example compare_numeric_fields :
  compareSemver "2.1.0-beta.3" "2.1.0-beta.11" = Some (-1).
Proof. reflexivity. Qed.

(** Neither side of a comparison may fail to parse; the empty string
    never parses. *)
Lemma compareSemver_empty_r a : compareSemver a EmptyString = None.
Proof. unfold compareSemver. destruct (parseSemver a); reflexivity. Qed.

Lemma compareSemver_parsed a b k :
  compareSemver a b = Some k ->
  (exists va, parseSemver a = Some va) /\ (exists vb, parseSemver b = Some vb).
Proof.
  unfold compareSemver.
  destruct (parseSemver a) as [va|]; [|discriminate].
  destruct (parseSemver b) as [vb|]; [|discriminate].
  eauto.
Qed.

Lemma compareSemver_sign a b k :
  compareSemver a b = Some k -> k = -1 \/ k = 0 \/ k = 1.
Proof.
  unfold compareSemver.
  destruct (parseSemver a) as [va|]; [|discriminate].
  destruct (parseSemver b) as [vb|]; [|discriminate].
  intros [= <-].
  destruct (thenCompare _ _); cbn; auto.
Qed.

End VersionCompatFacts.

(** ** Properties of the update checker *)

Module CheckerFacts.

Import UpdateChecker CheckerSpec.

(** *** The helpers read the world and leave it as it is *)

Lemma resolveChannel_reads uc w :
  exists c, resolveChannel uc w = (Normal c, w).
Proof.
  unfold resolveChannel, mbind, Eff_bind, bind, process_env, mret, Eff_ret, ret.
  repeat case_bool_decide; eauto.
Qed.

Lemma resolveChannel_eval uc w c :
  eval (resolveChannel uc) w = Normal c -> resolveChannel uc w = (Normal c, w).
Proof.
  destruct (resolveChannel_reads uc w) as [c' E]. unfold eval. rewrite E.
  cbn. intros [= ->]. reflexivity.
Qed.

(** The quotient of the source, [(Date.now() - lastCheck) / 1_000],
    against the interval, in integers. *)
Lemma elapsed_lt now t i :
  lt (div (sub (ofZ now) (ofZ t)) (ofZ 1000)) (ofZ i) = Z.ltb (now - t) (1000 * i).
Proof.
  unfold lt, div, sub, ofZ.
  replace (Qeq_bool (inject_Z 1000) 0) with false by reflexivity.
  unfold Qle_bool, Qdiv, Qmult, Qinv, Qminus, Qplus, Qopp, inject_Z.
  cbn [Qnum Qden].
  change (Z.pos (1 * 1 * 1000)) with 1000.
  destruct (Z.leb_spec0 (i * 1000) ((now * 1 + - t * 1) * 1 * 1)) as [H|H];
    destruct (Z.ltb_spec0 (now - t) (1000 * i)) as [H'|H'];
    simpl; try reflexivity; lia.
Qed.


(** *** Channel resolution *)

(** C5. [resolveChannel] never throws and leaves the world alone. An
    environment override that, trimmed and lower-cased, is the name of a
    channel wins; with any other value of the variable, or without the
    variable, the result is the channel of the configuration when it has
    one and [stable] otherwise. In particular ["  BETA  "] resolves to
    beta and ["invalid"] is ignored. *)
Theorem resolveChannel_precedence (uc : option UpdateConfig) (w : World) :
  (exists c, resolveChannel uc w = (Normal c, w))
  /\ (forall raw c,
        env w !! "MILAIDY_UPDATE_CHANNEL" = Some raw ->
        toLowerCase (trim raw) = channelName c ->
        resolveChannel uc w = (Normal c, w))
  /\ ((forall raw c,
         env w !! "MILAIDY_UPDATE_CHANNEL" = Some raw ->
         toLowerCase (trim raw) <> channelName c) ->
      resolveChannel uc w =
        (Normal (match uc ≫= channel with
                 | Some c => c
                 | None => Stable
                 end), w))
  /\ (env w !! "MILAIDY_UPDATE_CHANNEL" = Some "  BETA  " ->
      resolveChannel uc w = (Normal Beta, w))
  /\ (env w !! "MILAIDY_UPDATE_CHANNEL" = Some "invalid" ->
      resolveChannel uc w = (Normal (default Stable (uc ≫= channel)), w)).
Proof.
  split; [apply resolveChannel_reads|].
  unfold resolveChannel, mbind, Eff_bind, bind, process_env, mret, Eff_ret, ret.
  split; [|split; [|split]].
  - intros raw c -> Hname. cbn [fmap option_fmap option_map]. rewrite Hname.
    destruct c; reflexivity.
  - intros Hnone.
    destruct (env w !! "MILAIDY_UPDATE_CHANNEL") as [raw|] eqn:E;
      cbn [fmap option_fmap option_map].
    + repeat case_bool_decide;
        try match goal with
            | H : Some _ = Some _ |- _ =>
                injection H as H;
                first [ exfalso; exact (Hnone raw Stable eq_refl H)
                      | exfalso; exact (Hnone raw Beta eq_refl H)
                      | exfalso; exact (Hnone raw Nightly eq_refl H) ]
            end.
      destruct (uc ≫= channel); reflexivity.
    + destruct (uc ≫= channel); reflexivity.
  - intros ->. reflexivity.
  - intros ->. reflexivity.
Qed.

Lemma resolveChannel_precedence_witness :
  resolveChannel (Some (mkUpdateConfig (Some Stable) None None None))
    (sampleWorld (sampleConfig EmptyString) (Some " Nightly ") true Hangs)
  = (Normal Nightly,
     sampleWorld (sampleConfig EmptyString) (Some " Nightly ") true Hangs)
  /\ resolveChannel (Some (mkUpdateConfig (Some Nightly) None None None))
       (sampleWorld (sampleConfig EmptyString) (Some (nbsp +:+ "beta" +:+ nbsp))
          true Hangs)
     = (Normal Beta,
        sampleWorld (sampleConfig EmptyString) (Some (nbsp +:+ "beta" +:+ nbsp))
          true Hangs).
Proof.
  split.
  - apply (proj1 (proj2 (resolveChannel_precedence _ _)) " Nightly " Nightly);
      reflexivity.
  - apply (proj1 (proj2 (resolveChannel_precedence _ _))
             (nbsp +:+ "beta" +:+ nbsp) Beta);
      reflexivity.
Defined.

Section Facts.

Variable VERSION : string.
Variable compareSemver : string -> string -> option Z.
Variable Date_parse : string -> option Z.
Variable Date_toISOString : Z -> string.

Abbreviation shouldSkipCheck := (UpdateChecker.shouldSkipCheck Date_parse).
Abbreviation checkForUpdate :=
  (UpdateChecker.checkForUpdate VERSION compareSemver Date_parse Date_toISOString).
Abbreviation reachesRegistry := (CheckerSpec.reachesRegistry Date_parse).

Lemma shouldSkipCheck_reads uc w :
  exists b, shouldSkipCheck uc w = (Normal b, w).
Proof.
  unfold UpdateChecker.shouldSkipCheck.
  destruct uc as [uc|]; [|eexists; reflexivity].
  destruct (lastCheckAt uc) as [s|]; [|eexists; reflexivity].
  destruct (String.eqb s EmptyString); eexists; reflexivity.
Qed.

Lemma shouldSkipCheck_eval uc w b :
  eval (shouldSkipCheck uc) w = Normal b -> shouldSkipCheck uc w = (Normal b, w).
Proof.
  destruct (shouldSkipCheck_reads uc w) as [b' E]. unfold eval. rewrite E.
  cbn. intros [= ->]. reflexivity.
Qed.

(** With a time stamp that parses, the gate is the comparison of the
    age with the interval. *)
Lemma shouldSkipCheck_parsed uc at_ t w :
  lastCheckAt uc = Some at_ -> at_ <> EmptyString -> Date_parse at_ = Some t ->
  shouldSkipCheck (Some uc) w =
    (Normal (Z.ltb (clock w - t)
               (1000 * default DEFAULT_CHECK_INTERVAL_SECONDS (checkIntervalSeconds uc))),
     w).
Proof.
  intros Hat Hne Hp. unfold UpdateChecker.shouldSkipCheck. rewrite Hat.
  destruct (String.eqb_spec at_ EmptyString) as [E|_]; [contradiction|].
  unfold mbind, Eff_bind, bind, Date_now, mret, Eff_ret, ret, getTime.
  rewrite Hp, elapsed_lt. reflexivity.
Qed.

Lemma shouldSkipCheck_unparsed uc at_ w :
  lastCheckAt uc = Some at_ -> Date_parse at_ = None ->
  shouldSkipCheck (Some uc) w = (Normal false, w).
Proof.
  intros Hat Hp. unfold UpdateChecker.shouldSkipCheck. rewrite Hat.
  destruct (String.eqb at_ EmptyString); [reflexivity|].
  unfold mbind, Eff_bind, bind, Date_now, mret, Eff_ret, ret, getTime.
  rewrite Hp. reflexivity.
Qed.


(** *** The registry client *)

Ltac run_fetch :=
unfold fetchDistTags, mbind, Eff_bind, bind, abortAfter, try_finally, try_catch,
  fetch, json;
cbn [registry setTimer clock record setClock].

Ltac settle := do 2 eexists; (split; [reflexivity|]); cbn; auto.

(** Whatever the registry does, [fetchDistTags] completes normally; it
  makes one request, clears its timer and touches neither the stored
  configuration nor the environment. *)
Lemma fetchDistTags_total w :
exists v w', fetchDistTags w = (Normal v, w')
  /\ stored w' = stored w /\ env w' = env w /\ writable w' = writable w
  /\ timer w' = None
  /\ events w' =
       Fetched (NPM_REGISTRY_URL +:+ "/" +:+ PACKAGE_NAME)
               "application/vnd.npm.install-v1+json" :: events w.
Proof.
run_fetch.
destruct (registry w) as [|after e|after r].
- settle.
- destruct (Z.ltb _ _); settle.
- destruct (Z.ltb _ _); [|settle].
  destruct (ok r); cbn; [|settle].
  destruct (Z.ltb _ _); [|settle].
  destruct (body r) as [|[|tags]]; settle.
Qed.

Lemma resolveChannel_setWritable uc b w :
  eval (resolveChannel uc) (setWritable b w) = eval (resolveChannel uc) w.
Proof.
  unfold eval, resolveChannel, mbind, Eff_bind, bind, process_env.
  cbn [env setWritable]. repeat case_bool_decide; reflexivity.
Qed.

Lemma shouldSkipCheck_setWritable uc b w :
  eval (shouldSkipCheck uc) (setWritable b w) = eval (shouldSkipCheck uc) w.
Proof.
  unfold eval, UpdateChecker.shouldSkipCheck.
  destruct uc as [uc|]; [|reflexivity].
  destruct (lastCheckAt uc) as [s|]; [|reflexivity].
  destruct (String.eqb s EmptyString); reflexivity.
Qed.

Lemma fetchDistTags_setWritable b w :
  fetchDistTags (setWritable b w) =
    (fst (fetchDistTags w), setWritable b (snd (fetchDistTags w))).
Proof.
  destruct w as [en st wr ck net tm ev].
  unfold setWritable. run_fetch. cbn.
  destruct net as [|after e|after r]; [reflexivity| |].
  - destruct (Z.ltb _ _); reflexivity.
  - destruct (Z.ltb _ _); [|reflexivity].
    destruct (ok r); cbn; [|reflexivity].
    destruct (Z.ltb _ _); [|reflexivity].
    destruct (body r) as [|[|tags]]; reflexivity.
Qed.

(** What a check that is not answered from the cache returns, by the
    outcome of the fetch. *)
Lemma checkForUpdate_after_fetch options w c v w1 :
  reachesRegistry options w ->
  eval (resolveChannel (update (stored w))) w = Normal c ->
  fetchDistTags w = (Normal v, w1) ->
  checkForUpdate options w =
    match v with
    | None =>
        (Normal (mkUpdateCheckResult false VERSION None c (CHANNEL_DIST_TAGS c)
                   false (Some unreachableMessage)), w1)
    | Some tags =>
        let unpublished :=
          mkUpdateCheckResult false VERSION None c (CHANNEL_DIST_TAGS c) false
            (Some (noReleasesMessage c)) in
        match tags !! CHANNEL_DIST_TAGS c with
        | None => (Normal unpublished, w1)
        | Some latest =>
            if String.eqb latest EmptyString then (Normal unpublished, w1)
            else
              let saved :=
                withLastCheck (stored w) (Date_toISOString (clock w1)) latest in
              (Normal (mkUpdateCheckResult
                         (match compareSemver VERSION latest with
                          | Some k => Z.ltb k 0
                          | None => false
                          end)
                         VERSION (Some latest) c (CHANNEL_DIST_TAGS c) false None),
               if writable w1
               then setStored saved (record (SaveCalled saved) w1)
               else record (SaveCalled saved) w1)
        end
    end.
Proof.
  intros Hgate Hc Hf.
  apply resolveChannel_eval in Hc.
  unfold UpdateChecker.checkForUpdate, mbind, Eff_bind, bind, loadMilaidyConfig.
  rewrite Hc.
  assert (Hskip : (if notForced options
                   then shouldSkipCheck (update (stored w))
                   else mret false) w = (Normal false, w)).
  { destruct Hgate as [Hn|Hs].
    - rewrite Hn. reflexivity.
    - destruct (notForced options); [|reflexivity].
      apply shouldSkipCheck_eval, Hs. }
  rewrite Hskip, Hf.
  destruct v as [tags|]; [|reflexivity].
  cbn zeta. destruct (tags !! CHANNEL_DIST_TAGS c) as [latest|]; [|reflexivity].
  destruct (String.eqb latest EmptyString); [reflexivity|].
  unfold Date_now, try_catch, saveMilaidyConfig, mret, Eff_ret, ret.
  destruct (writable w1); reflexivity.
Qed.

(** *** The cache gate *)

(** C1. Without [force], when the configuration has a [lastCheckAt]
    whose age is below [checkIntervalSeconds] (14400 s when unset),
    the check returns [cached = true] and leaves the world as it found
    it: no request, no save. [updateAvailable] holds exactly when
    comparing the running version with the cached [lastCheckVersion]
    gives a negative number; no cached version or a null comparison
    mean no update. The two assumptions are on the imports: the empty
    string is an Invalid Date and is not a version. *)
Theorem checkForUpdate_cached options w uc at_ t :
  Date_parse EmptyString = None ->
  (forall a, compareSemver a EmptyString = None) ->
  notForced options = true ->
  update (stored w) = Some uc ->
  lastCheckAt uc = Some at_ ->
  Date_parse at_ = Some t ->
  clock w - t < 1000 * default DEFAULT_CHECK_INTERVAL_SECONDS (checkIntervalSeconds uc) ->
  exists r,
    checkForUpdate options w = (Normal r, w)
    /\ cached r = true
    /\ error r = None
    /\ latestVersion r = lastCheckVersion uc
    /\ (updateAvailable r = true <->
        exists v k, lastCheckVersion uc = Some v
                    /\ compareSemver VERSION v = Some k /\ k < 0).
Proof.
  intros Hdate Hcmp Hforce Huc Hat Hp Hage.
  assert (Hne : at_ <> EmptyString) by (intros ->; congruence).
  destruct (resolveChannel_reads (update (stored w)) w) as [c Hc].
  unfold UpdateChecker.checkForUpdate, mbind, Eff_bind, bind, loadMilaidyConfig.
  rewrite Hc, Hforce, Huc, (shouldSkipCheck_parsed uc at_ t w Hat Hne Hp).
  apply Z.ltb_lt in Hage. rewrite Hage.
  eexists. split; [reflexivity|]. cbn.
  repeat split; trivial.
  - destruct (lastCheckVersion uc) as [v|]; [|discriminate].
    destruct (String.eqb v EmptyString); [discriminate|].
    destruct (compareSemver VERSION v) as [k|] eqn:Ek; cbn; [|discriminate].
    intros Hk. exists v, k. apply Z.ltb_lt in Hk. auto.
  - intros (v & k & -> & Ek & Hk).
    destruct (String.eqb_spec v EmptyString) as [->|_].
    + rewrite Hcmp in Ek. discriminate.
    + rewrite Ek. cbn. apply Z.ltb_lt, Hk.
Qed.

(** C10. A [lastCheckAt] that does not parse never fires the gate,
    whatever the interval: the age is [NaN] and [NaN < n] is false. The
    check then completes normally, is not cached and has made one
    request. *)
Theorem unparsable_lastCheckAt_fetches options w uc at_ :
  update (stored w) = Some uc ->
  lastCheckAt uc = Some at_ ->
  Date_parse at_ = None ->
  shouldSkipCheck (Some uc) w = (Normal false, w)
  /\ exists r w',
      checkForUpdate options w = (Normal r, w')
      /\ cached r = false
      /\ fetchCount w' = S (fetchCount w).
Proof.
  intros Huc Hat Hp.
  pose proof (shouldSkipCheck_unparsed uc at_ w Hat Hp) as Hskip.
  split; [exact Hskip|].
  destruct (resolveChannel_reads (update (stored w)) w) as [c Hc].
  destruct (fetchDistTags_total w) as (v & w1 & Hf & Hst & _ & Hwr & _ & Hev).
  assert (Hgate : reachesRegistry options w).
  { right. rewrite Huc. unfold eval. rewrite Hskip. reflexivity. }
  assert (Hc' : eval (resolveChannel (update (stored w))) w = Normal c)
    by (unfold eval; rewrite Hc; reflexivity).
  rewrite (checkForUpdate_after_fetch options w c v w1 Hgate Hc' Hf).
  assert (Hcount : fetchCount w1 = S (fetchCount w))
    by (unfold fetchCount; rewrite Hev; reflexivity).
  destruct v as [tags|]; [|do 2 eexists; (split; [reflexivity|split; [reflexivity|exact Hcount]])].
  cbn zeta. destruct (tags !! CHANNEL_DIST_TAGS c) as [latest|];
    [|do 2 eexists; (split; [reflexivity|split; [reflexivity|exact Hcount]])].
  destruct (String.eqb latest EmptyString);
    [do 2 eexists; (split; [reflexivity|split; [reflexivity|exact Hcount]])|].
  do 2 eexists. split; [reflexivity|]. split; [reflexivity|].
  destruct (writable w1); unfold fetchCount in *; cbn; exact Hcount.
Qed.

(** *** A failing registry *)

(** C3. [fetchDistTags] completes normally on every world. When the
    request fails (no answer or a late one, so that the abort timer
    set to 8000 ms fires; a response that is not ok; a transport
    error; a malformed body) it returns null, and a check that reaches
    the registry then reports no update, no latest version, not
    cached, the network error text; the stored configuration is the
    one found and no save was attempted. A registry that never answers
    costs exactly the 8000 ms of the timer. *)
Theorem registry_failure_is_reported options w :
  RegistryFailure (registry w) ->
  (forall w0, exists v w1, fetchDistTags w0 = (Normal v, w1))
  /\ (exists w1, fetchDistTags w = (Normal None, w1)
                 /\ (registry w = Hangs -> clock w1 = clock w + 8000))
  /\ (reachesRegistry options w ->
      exists r w',
        checkForUpdate options w = (Normal r, w')
        /\ updateAvailable r = false
        /\ latestVersion r = None
        /\ cached r = false
        /\ error r =
             Some "Unable to reach the npm registry. Check your network connection."
        /\ stored w' = stored w
        /\ saveCount w' = saveCount w).
Proof.
  intros Hfail.
  split.
  { intros w0. destruct (fetchDistTags_total w0) as (v & w1 & Hf & _). eauto. }
  assert (Hnull : exists w1, fetchDistTags w = (Normal None, w1)
                             /\ (registry w = Hangs -> clock w1 = clock w + 8000)).
  { run_fetch. remember (registry w) as net eqn:Hreg.
    destruct Hfail as [| after r Hlate | after r Hlate
                       | after r Hok | after e | after r Hbody ];
      unfold REGISTRY_TIMEOUT_MS in *.
    - eexists. split; [reflexivity|]. reflexivity.
    - destruct (Z.ltb_spec (clock w + after) (clock w + 8000)); [lia|].
      eexists. split; [reflexivity|]. discriminate.
    - destruct (Z.ltb_spec (clock w + after) (clock w + 8000));
        [|eexists; split; [reflexivity|discriminate]].
      destruct (ok r); cbn; [|eexists; split; [reflexivity|discriminate]].
      destruct (Z.ltb_spec (clock w + after + bodyAfter r) (clock w + 8000)); [lia|].
      eexists. split; [reflexivity|]. discriminate.
    - destruct (Z.ltb _ _); [|eexists; split; [reflexivity|discriminate]].
      rewrite Hok. eexists. split; [reflexivity|]. discriminate.
    - destruct (Z.ltb _ _); eexists; (split; [reflexivity|discriminate]).
    - destruct (Z.ltb _ _); [|eexists; split; [reflexivity|discriminate]].
      destruct (ok r); cbn; [|eexists; split; [reflexivity|discriminate]].
      destruct (Z.ltb _ _); [|eexists; split; [reflexivity|discriminate]].
      rewrite Hbody. eexists. split; [reflexivity|]. discriminate. }
  split; [exact Hnull|].
  intros Hgate.
  destruct Hnull as (w1 & Hf & _).
  destruct (resolveChannel_reads (update (stored w)) w) as [c Hc].
  assert (Hc' : eval (resolveChannel (update (stored w))) w = Normal c)
    by (unfold eval; rewrite Hc; reflexivity).
  rewrite (checkForUpdate_after_fetch options w c None w1 Hgate Hc' Hf).
  destruct (fetchDistTags_total w) as (v & w2 & Hf2 & Hst & _ & _ & _ & Hev).
  rewrite Hf in Hf2. injection Hf2 as _ <-.
  do 2 eexists. split; [reflexivity|].
  repeat split; [exact Hst|].
  unfold saveCount. rewrite Hev. reflexivity.
Qed.

(** *** A channel without a release *)

(** C4. When the fetched map has no entry under the tag of the
    resolved channel, the check reports no update and no latest
    version, and its error text names the channel and says that it
    may not have any published releases; the stored configuration is
    the one found and no save was attempted. *)
Theorem checkForUpdate_unpublished options w c tags w1 :
  reachesRegistry options w ->
  eval (resolveChannel (update (stored w))) w = Normal c ->
  fetchDistTags w = (Normal (Some tags), w1) ->
  tags !! CHANNEL_DIST_TAGS c = None ->
  exists r w' msg,
    checkForUpdate options w = (Normal r, w')
    /\ updateAvailable r = false
    /\ latestVersion r = None
    /\ resultChannel r = c
    /\ error r = Some msg
    /\ includes msg (quote +:+ channelName c +:+ quote) = true
    /\ includes msg "not have any published releases" = true
    /\ stored w' = stored w
    /\ saveCount w' = saveCount w.
Proof.
  intros Hgate Hc Hf Hnone.
  rewrite (checkForUpdate_after_fetch options w c _ w1 Hgate Hc Hf).
  cbn zeta. rewrite Hnone.
  destruct (fetchDistTags_total w) as (v & w2 & Hf2 & Hst & _ & _ & _ & Hev).
  rewrite Hf in Hf2. injection Hf2 as _ <-.
  exists (mkUpdateCheckResult false VERSION None c (CHANNEL_DIST_TAGS c) false
            (Some (noReleasesMessage c))), w1, (noReleasesMessage c).
  split; [reflexivity|].
  repeat split; try (destruct c; reflexivity); [exact Hst|].
  unfold saveCount. rewrite Hev. reflexivity.
Qed.

(** *** A release found *)

(** C2. When the check reaches the registry and the fetched map has a
    version under the tag of the resolved channel, [updateAvailable]
    holds exactly when comparing the running version with that version
    gives a negative number. One save is attempted, whatever the
    comparison says, with the configuration found in which
    [lastCheckAt] is the current instant and [lastCheckVersion] the
    version found; the channel, the interval and every other member
    are kept. A save that succeeds stores it; a save that throws is
    caught: the check still completes normally, and with the same
    result. *)
Theorem checkForUpdate_found options w c tags w1 latest :
  reachesRegistry options w ->
  eval (resolveChannel (update (stored w))) w = Normal c ->
  fetchDistTags w = (Normal (Some tags), w1) ->
  tags !! CHANNEL_DIST_TAGS c = Some latest ->
  latest <> EmptyString ->
  exists r saved,
    (forall b, exists w',
        checkForUpdate options (setWritable b w) = (Normal r, w')
        /\ events w' = SaveCalled saved :: events w1
        /\ stored w' = if b then saved else stored w)
    /\ (exists w',
          checkForUpdate options w = (Normal r, w')
          /\ stored w' = if writable w then saved else stored w)
    /\ (updateAvailable r = true <->
        exists k, compareSemver VERSION latest = Some k /\ k < 0)
    /\ latestVersion r = Some latest
    /\ cached r = false
    /\ error r = None
    /\ update saved ≫= lastCheckAt = Some (Date_toISOString (clock w1))
    /\ update saved ≫= lastCheckVersion = Some latest
    /\ update saved ≫= channel = update (stored w) ≫= channel
    /\ update saved ≫= checkIntervalSeconds
       = update (stored w) ≫= checkIntervalSeconds
    /\ otherMembers saved = otherMembers (stored w).
Proof.
  intros Hgate Hc Hf Htag Hne.
  exists (mkUpdateCheckResult
            (match compareSemver VERSION latest with
             | Some k => Z.ltb k 0
             | None => false
             end)
            VERSION (Some latest) c (CHANNEL_DIST_TAGS c) false None),
         (withLastCheck (stored w) (Date_toISOString (clock w1)) latest).
  assert (Hall : forall b, exists w',
             checkForUpdate options (setWritable b w)
             = (Normal
                  (mkUpdateCheckResult
                     (match compareSemver VERSION latest with
                      | Some k => Z.ltb k 0
                      | None => false
                      end)
                     VERSION (Some latest) c (CHANNEL_DIST_TAGS c) false None), w')
             /\ events w' =
                  SaveCalled (withLastCheck (stored w)
                                (Date_toISOString (clock w1)) latest) :: events w1
             /\ stored w' =
                  if b
                  then withLastCheck (stored w) (Date_toISOString (clock w1)) latest
                  else stored w).
  { intros b.
    assert (Hgate' : reachesRegistry options (setWritable b w)).
    { destruct Hgate as [Hn|Hs]; [left; exact Hn|right].
      cbn [stored setWritable]. rewrite shouldSkipCheck_setWritable. exact Hs. }
    assert (Hc' : eval (resolveChannel (update (stored (setWritable b w))))
                    (setWritable b w) = Normal c).
    { cbn [stored setWritable]. rewrite resolveChannel_setWritable. exact Hc. }
    pose proof (fetchDistTags_setWritable b w) as Hf'.
    rewrite Hf in Hf'. cbn [fst snd] in Hf'.
    rewrite (checkForUpdate_after_fetch options _ c _ _ Hgate' Hc' Hf').
    cbn zeta. rewrite Htag.
    destruct (String.eqb_spec latest EmptyString) as [E|_]; [contradiction|].
    destruct (fetchDistTags_total w) as (v & w2 & Hf2 & Hst & _ & _ & _ & Hev).
    rewrite Hf in Hf2. injection Hf2 as _ <-.
    eexists. split; [reflexivity|].
    cbn [writable setWritable stored clock].
    destruct b; cbn; auto. }
  split; [exact Hall|].
  split.
  { destruct (Hall (writable w)) as (w' & Hrun & _ & Hst).
    replace (setWritable (writable w) w) with w in Hrun by (destruct w; reflexivity).
    eauto. }
  cbn. repeat split.
  - destruct (compareSemver VERSION latest) as [k|]; [|discriminate].
    intros Hk. exists k. apply Z.ltb_lt in Hk. auto.
  - intros (k & -> & Hk). apply Z.ltb_lt, Hk.
  - destruct (update (stored w)); reflexivity.
  - destruct (update (stored w)); reflexivity.
Qed.

End Facts.
(** *** Sample runs *)

Lemma checkForUpdate_cached_witness :
  let w := sampleWorld (sampleConfig "2026-02-08T12:00:00.000Z") None true
             sampleRegistry in
  exists r,
    checkForUpdate sampleVersion VersionCompat.compareSemver sampleDate_parse
      sampleDate_toISOString None w = (Normal r, w)
    /\ cached r = true
    /\ latestVersion r = Some "2.1.0"
    /\ updateAvailable r = true.
Proof.
  intros w.
  destruct (checkForUpdate_cached sampleVersion VersionCompat.compareSemver
              sampleDate_parse sampleDate_toISOString None w
              (mkUpdateConfig None (Some "2026-02-08T12:00:00.000Z")
                 (Some "2.1.0") (Some 3600))
              "2026-02-08T12:00:00.000Z" 1770552000000)
    as (r & Hrun & Hcached & _ & Hlatest & Hiff);
    try reflexivity.
  - exact VersionCompatFacts.compareSemver_empty_r.
  - exists r. repeat split; trivial.
    apply Hiff. exists "2.1.0", (-1). repeat split.
Defined.

Lemma unparsable_lastCheckAt_fetches_witness :
  let w := sampleWorld (sampleConfig "yesterday") None true sampleRegistry in
  exists r w',
    checkForUpdate sampleVersion VersionCompat.compareSemver sampleDate_parse
      sampleDate_toISOString None w = (Normal r, w')
    /\ cached r = false
    /\ fetchCount w' = 1%nat.
Proof.
  intros w.
  apply (unparsable_lastCheckAt_fetches sampleVersion VersionCompat.compareSemver
           sampleDate_parse sampleDate_toISOString None w
           (mkUpdateConfig None (Some "yesterday") (Some "2.1.0") (Some 3600))
           "yesterday");
    reflexivity.
Defined.

Lemma registry_failure_is_reported_witness :
  let w := sampleWorld (sampleConfig "2026-02-08T12:00:00.000Z") None true Hangs in
  exists r w',
    checkForUpdate sampleVersion VersionCompat.compareSemver sampleDate_parse
      sampleDate_toISOString (Some (mkCheckOptions (Some true))) w = (Normal r, w')
    /\ updateAvailable r = false
    /\ latestVersion r = None
    /\ cached r = false
    /\ error r = Some "Unable to reach the npm registry. Check your network connection."
    /\ stored w' = stored w
    /\ saveCount w' = saveCount w.
Proof.
  intros w.
  apply (registry_failure_is_reported sampleVersion VersionCompat.compareSemver
           sampleDate_parse sampleDate_toISOString
           (Some (mkCheckOptions (Some true))) w).
  - apply failure_hang.
  - left. reflexivity.
Defined.

Lemma checkForUpdate_unpublished_witness :
  let w := sampleWorld (sampleConfig "2026-02-08T12:00:00.000Z") (Some "nightly") true
             sampleRegistry in
  exists r w' msg,
    checkForUpdate sampleVersion VersionCompat.compareSemver sampleDate_parse
      sampleDate_toISOString (Some (mkCheckOptions (Some true))) w = (Normal r, w')
    /\ updateAvailable r = false
    /\ latestVersion r = None
    /\ resultChannel r = Nightly
    /\ error r = Some msg
    /\ includes msg (quote +:+ "nightly" +:+ quote) = true
    /\ includes msg "not have any published releases" = true
    /\ stored w' = stored w
    /\ saveCount w' = saveCount w.
Proof.
  intros w.
  apply (checkForUpdate_unpublished sampleVersion VersionCompat.compareSemver
           sampleDate_parse sampleDate_toISOString
           (Some (mkCheckOptions (Some true))) w Nightly sampleTags
           (snd (fetchDistTags w))).
  - left. reflexivity.
  - reflexivity.
  - reflexivity.
  - reflexivity.
Defined.

Lemma checkForUpdate_found_witness :
  let w := sampleWorld (sampleConfig "2026-02-08T12:00:00.000Z") None true
             sampleRegistry in
  exists r saved,
    (forall b, exists w',
        checkForUpdate sampleVersion VersionCompat.compareSemver sampleDate_parse
          sampleDate_toISOString (Some (mkCheckOptions (Some true))) (setWritable b w)
        = (Normal r, w')
        /\ stored w' = if b then saved else stored w)
    /\ updateAvailable r = true
    /\ latestVersion r = Some "2.2.0"
    /\ update saved ≫= lastCheckAt = Some "2026-02-08T12:00:00.150Z"
    /\ update saved ≫= lastCheckVersion = Some "2.2.0"
    /\ update saved ≫= checkIntervalSeconds = Some 3600
    /\ otherMembers saved = {[ "logLevel" := "info" ]}.
Proof.
  intros w.
  destruct (checkForUpdate_found sampleVersion VersionCompat.compareSemver
              sampleDate_parse sampleDate_toISOString
              (Some (mkCheckOptions (Some true))) w Stable sampleTags
              (snd (fetchDistTags w)) "2.2.0")
    as (r & saved & Hall & _ & Hiff & Hlatest & _ & _ & Hat & Hver & _ & Hint & Hother);
    try reflexivity.
  - left. reflexivity.
  - discriminate.
  - exists r, saved. repeat split; trivial.
    + intros b. destruct (Hall b) as (w' & Hrun & _ & Hst). eauto.
    + apply Hiff. exists (-1). repeat split.
Defined.

End CheckerFacts.

(** ** Properties of the self-updater *)

Module UpdaterFacts.

Import SelfUpdater UpdaterSpec.

Ltac run_eff :=
  unfold mbind, Eff_bind, bind, try_catch, mret, Eff_ret, ret, execSync,
    realpathSync, readRootPackage.

(** *** Detection *)

Lemma whichSync_run h :
  whichSync "milaidy" h =
    (Normal (match shell h "which milaidy" with
             | Normal out => Some (trim out)
             | Throw _ => None
             end),
     logged [Executed "which milaidy"] h).
Proof.
  unfold whichSync. run_eff.
  change ("which " +:+ "milaidy") with "which milaidy".
  destruct (shell h "which milaidy"); reflexivity.
Qed.

Lemma isLocalDev_reads h : exists b, isLocalDev h = (Normal b, h).
Proof.
  unfold isLocalDev. run_eff. destruct (rootPackage h); eauto.
Qed.

(** Detection always completes normally; all it does to the host is to
    run [which milaidy]. *)
Lemma detectInstallMethod_total h :
  exists m, detectInstallMethod h = (Normal m, logged [Executed "which milaidy"] h).
Proof.
  unfold detectInstallMethod.
  unfold mbind at 1. unfold Eff_bind, bind. rewrite whichSync_run.
  destruct (truthy _); cbn [negb].
  - run_eff. cbn [realpath logged].
    destruct (realpath h _);
      repeat match goal with
             | |- context [if ?b then _ else _] => destruct b
             end; eauto.
  - unfold mbind, Eff_bind, bind.
    destruct (isLocalDev_reads (logged [Executed "which milaidy"] h)) as [b ->].
    destruct b; eauto.
Qed.

Lemma truthy_Some s : s <> EmptyString -> truthy (Some s) = true.
Proof.
  intros Hne. unfold truthy. destruct (String.eqb_spec s EmptyString); [contradiction|].
  reflexivity.
Qed.

(** With a binary on the PATH, the method is the first rule of the
    decision list that the resolved path matches. *)
Lemma detectInstallMethod_found h out :
  shell h "which milaidy" = Normal out ->
  trim out <> EmptyString ->
  eval detectInstallMethod h =
    Normal (firstMatch classificationRules (resolvedPath h (trim out))).
Proof.
  intros Hwhich Hne.
  unfold eval, detectInstallMethod.
  unfold mbind at 1. unfold Eff_bind, bind. rewrite whichSync_run, Hwhich.
  rewrite (truthy_Some _ Hne). cbn [negb].
  change (default EmptyString (Some (trim out))) with (trim out).
  run_eff. cbn [realpath logged]. unfold resolvedPath.
  assert (Hchain : forall p w,
             fst ((if isInsideHomebrew p then Js.ret Homebrew
              else if isInsideSnap p then Js.ret Snap
              else if isInsideFlatpak p then Js.ret Flatpak
              else if startsWith p "/usr/" && negb (isInsideNodeModules p) then Js.ret Apt
              else if includes p "/.bun/" then Js.ret BunGlobal
              else if includes p "/pnpm/" then Js.ret PnpmGlobal
              else if isInsideNodeModules p then Js.ret NpmGlobal
              else Js.ret Unknown) (w : Host))
             = Normal (firstMatch classificationRules p)).
  { intros p w. unfold firstMatch, classificationRules, isInsideHomebrew, isInsideSnap,
      isInsideFlatpak, isInsideNodeModules, Js.ret.
    repeat match goal with
           | |- context [if ?b then _ else _] => destruct b
           end; reflexivity. }
  destruct (realpath h (trim out)); apply Hchain.
Qed.
(** C6. With a binary on the PATH, [detectInstallMethod] classifies the
    path resolved through symbolic links by the decision list homebrew,
    snap, flatpak, apt, bun-global, pnpm-global, npm-global, the first
    match winning and no match giving unknown. So a path with a Homebrew
    marker is homebrew even inside node_modules, and a path under /usr/
    inside node_modules is never apt: it is npm-global unless one of the
    markers ranked above npm-global is in it. *)
Theorem detectInstallMethod_priority h out :
  shell h "which milaidy" = Normal out ->
  trim out <> EmptyString ->
  let p := resolvedPath h (trim out) in
  eval detectInstallMethod h = Normal (firstMatch classificationRules p)
  /\ (includes p "/Cellar/" || includes p "/homebrew/" = true ->
      includes p "node_modules" = true ->
      eval detectInstallMethod h = Normal Homebrew)
  /\ (startsWith p "/usr/" = true ->
      includes p "node_modules" = true ->
      eval detectInstallMethod h <> Normal Apt
      /\ (isInsideHomebrew p = false -> isInsideSnap p = false ->
          isInsideFlatpak p = false ->
          includes p "/.bun/" = false -> includes p "/pnpm/" = false ->
          eval detectInstallMethod h = Normal NpmGlobal)).
Proof.
  intros Hwhich Hne p.
  rewrite (detectInstallMethod_found h out Hwhich Hne). fold p.
  split; [reflexivity|].
  unfold firstMatch, classificationRules, isInsideHomebrew, isInsideSnap,
    isInsideFlatpak.
  split.
  - intros -> _. reflexivity.
  - intros -> ->. cbn [negb andb]. split.
    + repeat match goal with
             | |- context [if ?b then _ else _] => destruct b
             end; discriminate.
    + intros -> -> -> -> ->. reflexivity.
Qed.

Lemma detectInstallMethod_priority_witness :
  eval detectInstallMethod
    (sampleHost "/usr/local/bin/milaidy"
       "/usr/local/lib/node_modules/milaidy/milaidy.mjs"
       (Closed (Some 0) []) (Throw notFound))
  = Normal NpmGlobal
  /\ eval detectInstallMethod
       (sampleHost "/opt/homebrew/bin/milaidy"
          "/opt/homebrew/Cellar/milaidy/2.0.0/libexec/lib/node_modules/milaidy/milaidy.mjs"
          (Closed (Some 0) []) (Throw notFound))
     = Normal Homebrew.
Proof.
  split.
  - apply (detectInstallMethod_priority
             (sampleHost "/usr/local/bin/milaidy"
                "/usr/local/lib/node_modules/milaidy/milaidy.mjs"
                (Closed (Some 0) []) (Throw notFound))
             "/usr/local/bin/milaidy ");
      solve [reflexivity | discriminate].
  - apply (detectInstallMethod_priority
             (sampleHost "/opt/homebrew/bin/milaidy"
                "/opt/homebrew/Cellar/milaidy/2.0.0/libexec/lib/node_modules/milaidy/milaidy.mjs"
                (Closed (Some 0) []) (Throw notFound))
             "/opt/homebrew/bin/milaidy ");
      solve [reflexivity | discriminate].
Defined.

(** The detection scenarios of the test suite, on the decision list. *)
Example detection_scenarios :
  map (firstMatch classificationRules)
    [ "/usr/local/lib/node_modules/milaidy/milaidy.mjs";
      "/home/user/.bun/install/global/node_modules/milaidy/milaidy.mjs";
      "/opt/homebrew/Cellar/milaidy/2.0.0/bin/milaidy";
      "/snap/milaidy/current/bin/milaidy";
      "/usr/bin/milaidy";
      "/var/lib/flatpak/app/ai.milady.Milaidy/bin/milaidy";
      "/home/user/.local/share/pnpm/global/5/node_modules/milaidy/milaidy.mjs";
      "/opt/tools/milaidy" ]
  = [ NpmGlobal; BunGlobal; Homebrew; Snap; Apt; Flatpak; PnpmGlobal; Unknown ].
Proof. reflexivity. Qed.

(** *** The command table *)

(** C7. The command of each install method, for every channel: npm, bun
    and pnpm install the package spec, which is [milaidy@latest] on
    stable and [milaidy@<distTag>] otherwise; snap refreshes to the
    snap channel (nightly is edge, not the registry tag); local-dev has
    no command; unknown has the command of npm-global. *)
Theorem buildUpdateCommand_table (channel : ReleaseChannel) :
  buildUpdateCommand NpmGlobal channel
    = Some (mkCommandInfo "npm" ["install"; "-g"; packageSpec channel])
  /\ buildUpdateCommand BunGlobal channel
     = Some (mkCommandInfo "bun" ["install"; "-g"; packageSpec channel])
  /\ buildUpdateCommand PnpmGlobal channel
     = Some (mkCommandInfo "pnpm" ["add"; "-g"; packageSpec channel])
  /\ buildUpdateCommand Homebrew channel
     = Some (mkCommandInfo "brew" ["upgrade"; "milaidy"])
  /\ buildUpdateCommand Snap channel
     = Some (mkCommandInfo "sudo"
               ["snap"; "refresh"; "milaidy"; "--channel=" +:+ snapChannelOf channel])
  /\ buildUpdateCommand Apt channel
     = Some (mkCommandInfo "sudo"
               ["apt-get"; "update"; "&&"; "sudo"; "apt-get"; "install";
                "--only-upgrade"; "milaidy"])
  /\ buildUpdateCommand Flatpak channel
     = Some (mkCommandInfo "flatpak" ["update"; "ai.milady.Milaidy"])
  /\ buildUpdateCommand LocalDev channel = None
  /\ buildUpdateCommand Unknown channel = buildUpdateCommand NpmGlobal channel
  /\ packageSpec channel
     = (if decide (channel = Stable) then "milaidy@latest"
        else "milaidy@" +:+ CHANNEL_DIST_TAGS channel)
  /\ snapChannelOf Nightly = "edge"
  /\ snapChannelOf Nightly <> CHANNEL_DIST_TAGS Nightly
  /\ snapChannelOf Beta = "beta"
  /\ snapChannelOf Stable = "stable".
Proof.
  destruct channel; repeat split; try reflexivity; discriminate.
Qed.

(** *** Execution *)

Lemma detectInstallMethod_eval h m :
  eval detectInstallMethod h = Normal m ->
  detectInstallMethod h = (Normal m, logged [Executed "which milaidy"] h).
Proof.
  destruct (detectInstallMethod_total h) as [m' E]. unfold eval. rewrite E.
  cbn. intros [= ->]. reflexivity.
Qed.

Lemma spawnCount_logged es h :
  spawnCount (logged es h) = (length (List.filter isSpawn es) + spawnCount h)%nat.
Proof.
  unfold spawnCount. cbn [log logged].
  rewrite List.filter_app, List.length_app. reflexivity.
Qed.

Lemma stderr_writes_spawn_nothing chunks :
  List.filter isSpawn (rev (map StderrWritten chunks)) = [].
Proof.
  induction chunks as [|chunk chunks IH]; [reflexivity|].
  cbn [map rev]. rewrite List.filter_app, IH. reflexivity.
Qed.

(** C8. When the spawned command exits with code 0, the update is a
    success with no error, whatever was written to stderr. The new
    version is the first version-shaped substring of what
    [milaidy --version] prints; when that command throws or prints no
    such substring the new version is null and the update is still a
    success. *)
Theorem performUpdate_exit_zero h currentVersion channel m info chunks :
  eval detectInstallMethod h = Normal m ->
  buildUpdateCommand m channel = Some info ->
  child h (program info) (args info) = Closed (Some 0) chunks ->
  exists r h',
    performUpdate currentVersion channel h = (Normal r, h')
    /\ success r = true
    /\ error r = None
    /\ newVersion r =
         match shell h "milaidy --version" with
         | Normal out => firstSemver (trim out)
         | Throw _ => None
         end
    /\ ((forall out, shell h "milaidy --version" = Normal out ->
                     firstSemver (trim out) = None) ->
        newVersion r = None /\ success r = true).
Proof.
  intros Hm Hcmd Hchild.
  unfold performUpdate. unfold mbind at 1. unfold Eff_bind, bind.
  rewrite (detectInstallMethod_eval h m Hm), Hcmd.
  unfold mbind at 1. unfold Eff_bind, bind, runCommand.
  cbn [child logged]. rewrite Hchild.
  cbn [default from_option id Z.eqb negb].
  unfold readPostUpdateVersion. run_eff. cbn [shell logged].
  destruct (shell h "milaidy --version") as [out|e] eqn:Hver.
  - do 2 eexists. split; [reflexivity|]. cbn. repeat split; auto.
  - do 2 eexists. split; [reflexivity|]. cbn. repeat split; auto.
Qed.

Lemma performUpdate_exit_zero_witness :
  exists r h',
    performUpdate "2.0.0-alpha.7" Nightly
      (sampleHost "/snap/bin/milaidy" "/snap/milaidy/current/bin/milaidy"
         (Closed (Some 0) ["warning"]) (Normal "milaidy (no version)"))
    = (Normal r, h')
    /\ success r = true
    /\ error r = None
    /\ newVersion r = None.
Proof.
  destruct (performUpdate_exit_zero
              (sampleHost "/snap/bin/milaidy" "/snap/milaidy/current/bin/milaidy"
                 (Closed (Some 0) ["warning"]) (Normal "milaidy (no version)"))
              "2.0.0-alpha.7" Nightly Snap
              (mkCommandInfo "sudo" ["snap"; "refresh"; "milaidy"; "--channel=edge"])
              ["warning"])
    as (r & h' & Hrun & Hok & Herr & Hnew & _); try reflexivity.
  exists r, h'. repeat split; trivial.
Defined.

(** C9. When the spawned command exits with a non-zero code, exits
    without a code (reported as code 1) or fails at spawn time (code 1,
    the message of the error as text), the update is a failure without
    a new version; its error is the text when there is one and
    [Update command exited with code <n>.] otherwise. One child was
    spawned: nothing is retried. *)
Theorem performUpdate_failure h currentVersion channel m info exitCode stderr :
  eval detectInstallMethod h = Normal m ->
  buildUpdateCommand m channel = Some info ->
  ChildFailed (child h (program info) (args info)) exitCode stderr ->
  exists r h',
    performUpdate currentVersion channel h = (Normal r, h')
    /\ success r = false
    /\ newVersion r = None
    /\ error r =
         Some (if String.eqb stderr EmptyString
               then "Update command exited with code " +:+ showInt exitCode +:+ "."
               else stderr)
    /\ spawnCount h' = S (spawnCount h).
Proof.
  intros Hm Hcmd Hfail.
  unfold performUpdate. unfold mbind at 1. unfold Eff_bind, bind.
  rewrite (detectInstallMethod_eval h m Hm), Hcmd.
  unfold mbind at 1. unfold Eff_bind, bind, runCommand.
  cbn [child logged].
  remember (child h (program info) (args info)) as outcome eqn:Hout.
  destruct Hfail as [code chunks Hcode | chunks | err];
    cbn [default from_option id].
  - destruct (Z.eqb_spec code 0) as [->|_]; [contradiction|]. cbn [negb].
    do 2 eexists. split; [reflexivity|]. cbn [success newVersion error].
    repeat split.
    rewrite !spawnCount_logged, stderr_writes_spawn_nothing. reflexivity.
  - do 2 eexists. split; [reflexivity|]. cbn [success newVersion error].
    repeat split.
    rewrite !spawnCount_logged, stderr_writes_spawn_nothing. reflexivity.
  - do 2 eexists. split; [reflexivity|]. cbn [success newVersion error].
    repeat split.
Qed.

Lemma performUpdate_failure_witness :
  exists r h',
    performUpdate "2.0.0-alpha.7" Stable
      (sampleHost "/usr/local/bin/milaidy"
         "/usr/local/lib/node_modules/milaidy/milaidy.mjs"
         (Closed None []) (Throw notFound))
    = (Normal r, h')
    /\ success r = false
    /\ newVersion r = None
    /\ error r = Some "Update command exited with code 1."
    /\ spawnCount h' = 1%nat.
Proof.
  apply (performUpdate_failure
           (sampleHost "/usr/local/bin/milaidy"
              "/usr/local/lib/node_modules/milaidy/milaidy.mjs"
              (Closed None []) (Throw notFound))
           "2.0.0-alpha.7" Stable NpmGlobal
           (mkCommandInfo "npm" ["install"; "-g"; "milaidy@latest"]) 1 EmptyString).
  - reflexivity.
  - reflexivity.
  - apply (failed_no_code []).
Defined.

End UpdaterFacts.

(** ** Further properties of the update checker *)

Module CheckerExtras.

Import UpdateChecker CheckerSpec ExtraSpec CheckerFacts.

Section Extras.

Variable VERSION : string.
Variable compareSemver : string -> string -> option Z.
Variable Date_parse : string -> option Z.
Variable Date_toISOString : Z -> string.

Abbreviation shouldSkipCheck := (UpdateChecker.shouldSkipCheck Date_parse).
Abbreviation checkForUpdate :=
  (UpdateChecker.checkForUpdate VERSION compareSemver Date_parse Date_toISOString).
Abbreviation reachesRegistry := (CheckerSpec.reachesRegistry Date_parse).

(** What a check answered from the cache returns. *)
Lemma checkForUpdate_gate_fires options w c :
  notForced options = true ->
  eval (shouldSkipCheck (update (stored w))) w = Normal true ->
  eval (resolveChannel (update (stored w))) w = Normal c ->
  checkForUpdate options w =
    (Normal (mkUpdateCheckResult
               (match update (stored w) ≫= lastCheckVersion with
                | Some version =>
                    if String.eqb version EmptyString then false
                    else Z.ltb (default 0 (compareSemver VERSION version)) 0
                | None => false
                end)
               VERSION (update (stored w) ≫= lastCheckVersion)
               c (CHANNEL_DIST_TAGS c) true None), w).
Proof.
  intros Hforce Hskip Hc.
  apply resolveChannel_eval in Hc.
  apply shouldSkipCheck_eval in Hskip.
  unfold UpdateChecker.checkForUpdate, mbind, Eff_bind, bind, loadMilaidyConfig.
  rewrite Hc, Hforce, Hskip. reflexivity.
Qed.

(** Either the gate fires on an unforced check, or the registry is
    reached. *)
Lemma gate_or_registry options w :
  (notForced options = true
   /\ eval (shouldSkipCheck (update (stored w))) w = Normal true)
  \/ reachesRegistry options w.
Proof.
  destruct (notForced options) eqn:Hn; [|right; left; exact Hn].
  destruct (shouldSkipCheck_reads Date_parse (update (stored w)) w) as [b Hb].
  destruct b.
  - left. split; [reflexivity|]. unfold eval. rewrite Hb. reflexivity.
  - right. right. unfold eval. rewrite Hb. reflexivity.
Qed.

Lemma resolveChannel_evals uc w :
  exists c, eval (resolveChannel uc) w = Normal c.
Proof.
  destruct (resolveChannel_reads uc w) as [c Hc]. exists c.
  unfold eval. rewrite Hc. reflexivity.
Qed.

Ltac open_check options w c v w1 :=
  let Hc := fresh "Hc" in
  let Hf := fresh "Hf" in
  let Hst := fresh "Hst" in
  let Hev := fresh "Hev" in
  let Hwr := fresh "Hwr" in
  let Hen := fresh "Hen" in
  destruct (resolveChannel_evals (update (stored w)) w) as [c Hc];
  destruct (fetchDistTags_total w) as (v & w1 & Hf & Hst & Hen & Hwr & _ & Hev).

(** X1. Every check completes normally, for the running version, the
    resolved channel and its tag. A result with an error has no latest
    version, reports no update and is not cached; a result that reports an
    update carries the non-empty version that compared above the running
    one. *)
Theorem checkForUpdate_result_invariants options w :
  exists r w',
    checkForUpdate options w = (Normal r, w')
    /\ currentVersion r = VERSION
    /\ eval (resolveChannel (update (stored w))) w = Normal (resultChannel r)
    /\ distTag r = CHANNEL_DIST_TAGS (resultChannel r)
    /\ (error r <> None ->
        latestVersion r = None /\ updateAvailable r = false /\ cached r = false)
    /\ (updateAvailable r = true ->
        exists v k, latestVersion r = Some v /\ v <> EmptyString
                    /\ compareSemver VERSION v = Some k /\ k < 0).
Proof.
  open_check options w c v w1.
  destruct (gate_or_registry options w) as [[Hn Hskip]|Hgate].
  - rewrite (checkForUpdate_gate_fires options w c Hn Hskip Hc).
    do 2 eexists. split; [reflexivity|]. cbn.
    repeat split; trivial; try congruence.
    destruct (update (stored w) ≫= lastCheckVersion) as [ver|]; [|discriminate].
    destruct (String.eqb_spec ver EmptyString) as [->|Hne]; [discriminate|].
    destruct (compareSemver VERSION ver) as [k|] eqn:Ek; cbn; [|discriminate].
    intros Hk. exists ver, k. apply Z.ltb_lt in Hk. auto.
  - rewrite (checkForUpdate_after_fetch VERSION compareSemver Date_parse
               Date_toISOString options w c v w1 Hgate Hc Hf).
    destruct v as [tags|];
      [|do 2 eexists; split; [reflexivity|]; cbn; repeat split; trivial; discriminate].
    cbn zeta.
    destruct (tags !! CHANNEL_DIST_TAGS c) as [latest|];
      [|do 2 eexists; split; [reflexivity|]; cbn; repeat split; trivial; discriminate].
    destruct (String.eqb_spec latest EmptyString) as [->|Hne];
      [do 2 eexists; split; [reflexivity|]; cbn; repeat split; trivial; discriminate|].
    do 2 eexists. split; [reflexivity|]. cbn.
    repeat split; trivial; try congruence.
    destruct (compareSemver VERSION latest) as [k|] eqn:Ek; [|discriminate].
    intros Hk. exists latest, k. apply Z.ltb_lt in Hk. auto.
Qed.

(** The four ways a check ends. *)
Lemma checkForUpdate_outcomes options w :
  exists c,
    eval (resolveChannel (update (stored w))) w = Normal c
    /\ ((notForced options = true
         /\ eval (shouldSkipCheck (update (stored w))) w = Normal true
         /\ checkForUpdate options w =
              (Normal (mkUpdateCheckResult
                         (match update (stored w) ≫= lastCheckVersion with
                          | Some version =>
                              if String.eqb version EmptyString then false
                              else Z.ltb (default 0 (compareSemver VERSION version)) 0
                          | None => false
                          end)
                         VERSION (update (stored w) ≫= lastCheckVersion)
                         c (CHANNEL_DIST_TAGS c) true None), w))
        \/ (reachesRegistry options w
            /\ exists v w1,
                fetchDistTags w = (Normal v, w1)
                /\ stored w1 = stored w /\ env w1 = env w
                /\ writable w1 = writable w
                /\ events w1 =
                     Fetched (NPM_REGISTRY_URL +:+ "/" +:+ PACKAGE_NAME)
                       "application/vnd.npm.install-v1+json" :: events w
                /\ ((v = None
                     /\ checkForUpdate options w =
                          (Normal (mkUpdateCheckResult false VERSION None c
                                     (CHANNEL_DIST_TAGS c) false
                                     (Some unreachableMessage)), w1))
                    \/ (exists tags,
                          v = Some tags
                          /\ (tags !! CHANNEL_DIST_TAGS c = None
                              \/ tags !! CHANNEL_DIST_TAGS c = Some EmptyString)
                          /\ checkForUpdate options w =
                               (Normal (mkUpdateCheckResult false VERSION None c
                                          (CHANNEL_DIST_TAGS c) false
                                          (Some (noReleasesMessage c))), w1))
                    \/ (exists tags latest,
                          v = Some tags
                          /\ tags !! CHANNEL_DIST_TAGS c = Some latest
                          /\ latest <> EmptyString
                          /\ checkForUpdate options w =
                               (Normal (mkUpdateCheckResult
                                          (match compareSemver VERSION latest with
                                           | Some k => Z.ltb k 0
                                           | None => false
                                           end)
                                          VERSION (Some latest) c (CHANNEL_DIST_TAGS c)
                                          false None),
                                let saved :=
                                  withLastCheck (stored w)
                                    (Date_toISOString (clock w1)) latest in
                                if writable w1
                                then setStored saved (record (SaveCalled saved) w1)
                                else record (SaveCalled saved) w1))))).
Proof.
  open_check options w c v w1. exists c. split; [exact Hc|].
  destruct (gate_or_registry options w) as [[Hn Hskip]|Hgate].
  - left. repeat split; trivial.
    apply (checkForUpdate_gate_fires options w c Hn Hskip Hc).
  - right. split; [exact Hgate|]. exists v, w1.
    repeat (split; [assumption|]).
    pose proof (checkForUpdate_after_fetch VERSION compareSemver Date_parse
                  Date_toISOString options w c v w1 Hgate Hc Hf) as Hrun.
    destruct v as [tags|]; [|left; split; [reflexivity|exact Hrun]].
    right. cbn zeta in Hrun.
    destruct (tags !! CHANNEL_DIST_TAGS c) as [latest|] eqn:Htag;
      [|left; exists tags; repeat split; auto].
    destruct (String.eqb_spec latest EmptyString) as [->|Hne].
    + left. exists tags. repeat split; auto.
    + right. exists tags, latest. repeat split; auto.
Qed.

Lemma count_after_fetch w w1 :
  events w1 =
    Fetched (NPM_REGISTRY_URL +:+ "/" +:+ PACKAGE_NAME)
      "application/vnd.npm.install-v1+json" :: events w ->
  fetchCount w1 = S (fetchCount w) /\ saveCount w1 = saveCount w.
Proof. intros Hev. unfold fetchCount, saveCount. rewrite Hev. split; reflexivity. Qed.

(** X2. A cached result leaves the world exactly as it was, so it costs no
    request; a result that is not cached has cost exactly one. A save is
    attempted exactly when the result is neither cached nor an error, and
    only then, and only when the save succeeds, does the stored
    configuration change. *)
Theorem checkForUpdate_effects options w :
  exists r w',
    checkForUpdate options w = (Normal r, w')
    /\ (cached r = true -> w' = w)
    /\ (cached r = false -> fetchCount w' = S (fetchCount w))
    /\ (cached r = false -> error r = None -> saveCount w' = S (saveCount w))
    /\ (cached r = true \/ error r <> None ->
        saveCount w' = saveCount w /\ stored w' = stored w)
    /\ (writable w = false -> stored w' = stored w).
Proof.
  destruct (checkForUpdate_outcomes options w)
    as (c & Hc & [(Hn & Hskip & Hrun)
                 |(Hgate & v & w1 & Hf & Hst & Hen & Hwr & Hev & Hcase)]).
  - rewrite Hrun. do 2 eexists. split; [reflexivity|]. cbn.
    repeat split; trivial; discriminate.
  - destruct (count_after_fetch w w1 Hev) as [Hfc Hsc].
    destruct Hcase as [(-> & Hrun)
                      |[(tags & -> & Htag & Hrun)
                       |(tags & latest & -> & Htag & Hne & Hrun)]];
      rewrite Hrun; do 2 eexists; (split; [reflexivity|]); cbn.
    + repeat split; trivial; try discriminate.
    + repeat split; trivial; try discriminate.
    + rewrite Hwr. unfold fetchCount, saveCount in *.
      destruct (writable w); cbn; rewrite ?Hst;
        repeat split; trivial; try discriminate; try lia;
        try match goal with
            | H : _ \/ _ |- _ => exfalso; destruct H; congruence
            end.
Qed.

(** X3. A forced check never answers from the cache: it makes one request
    whatever the configuration says about the last check. *)
Theorem forced_check_always_fetches options w :
  notForced options = false ->
  exists r w',
    checkForUpdate options w = (Normal r, w')
    /\ cached r = false
    /\ fetchCount w' = S (fetchCount w).
Proof.
  intros Hforce.
  destruct (checkForUpdate_outcomes options w)
    as (c & Hc & [(Hn & _)
                 |(Hgate & v & w1 & Hf & Hst & Hen & Hwr & Hev & Hcase)]);
    [congruence|].
  destruct (count_after_fetch w w1 Hev) as [Hfc Hsc].
  destruct Hcase as [(-> & Hrun)
                    |[(tags & -> & Htag & Hrun)
                     |(tags & latest & -> & Htag & Hne & Hrun)]];
    rewrite Hrun; do 2 eexists; (split; [reflexivity|]); cbn; split; trivial.
  unfold fetchCount in *. destruct (writable w1); cbn; exact Hfc.
Qed.

(** X4. No check changes the channel, the interval or a member of the
    configuration other than [update]. *)
Theorem checkForUpdate_keeps_settings options w :
  settingsOf (stored (exec (checkForUpdate options) w)) = settingsOf (stored w).
Proof.
  unfold exec.
  destruct (checkForUpdate_outcomes options w)
    as (c & Hc & [(Hn & Hskip & Hrun)
                 |(Hgate & v & w1 & Hf & Hst & Hen & Hwr & Hev & Hcase)]).
  - rewrite Hrun. reflexivity.
  - destruct Hcase as [(-> & Hrun)
                      |[(tags & -> & Htag & Hrun)
                       |(tags & latest & -> & Htag & Hne & Hrun)]];
      rewrite Hrun; cbn [snd]; rewrite ?Hst; trivial.
    destruct (writable w1); cbn [stored setStored record]; rewrite ?Hst; trivial.
    unfold settingsOf, withLastCheck. cbn.
    destruct (update (stored w)); reflexivity.
Qed.

(** *** The gate over time *)

(** The channel depends on the environment and on the channel of the
    configuration only. *)
Lemma resolveChannel_depends uc uc' w w' :
  env w = env w' -> uc ≫= channel = uc' ≫= channel ->
  eval (resolveChannel uc) w = eval (resolveChannel uc') w'.
Proof.
  intros Hen Hch.
  unfold eval, resolveChannel, mbind, Eff_bind, bind, process_env in *.
  rewrite Hen, Hch. repeat case_bool_decide; reflexivity.
Qed.

(** A gate that does not fire does not fire later either. *)
Lemma shouldSkipCheck_false_later uc w later :
  clock w <= clock later ->
  eval (shouldSkipCheck uc) w = Normal false ->
  eval (shouldSkipCheck uc) later = Normal false.
Proof.
  intros Hle. unfold eval, UpdateChecker.shouldSkipCheck.
  destruct uc as [uc|]; [|reflexivity].
  destruct (lastCheckAt uc) as [s|]; [|reflexivity].
  destruct (String.eqb s EmptyString); [reflexivity|].
  unfold mbind, Eff_bind, bind, Date_now, mret, Eff_ret, ret, getTime.
  destruct (Date_parse s) as [t|]; [|reflexivity].
  rewrite !elapsed_lt. cbn [fst].
  intros [= Hold]. f_equal.
  apply Z.ltb_ge in Hold. apply Z.ltb_ge. lia.
Qed.

(** X5. Once the gate has stopped firing for a configuration it never
    fires again at a later instant: a stale time stamp stays stale. *)
Theorem gate_expiry_is_final uc w later :
  clock w <= clock later ->
  eval (shouldSkipCheck uc) w = Normal false ->
  eval (shouldSkipCheck uc) later = Normal false.
Proof.
  intros Hle Hstale.
  destruct (shouldSkipCheck_reads Date_parse uc later) as [b Hb].
  pose proof (shouldSkipCheck_false_later uc w later Hle Hstale) as Hlater.
  unfold eval in *. rewrite Hb in *. cbn in *. exact Hlater.
Qed.

(** X6. An interval of zero (or less) is taken as it is, not replaced by
    the default: with a time stamp that is not in the future, an unforced
    check is not cached and makes its request. *)
Theorem zero_interval_disables_cache options w uc at_ t i :
  update (stored w) = Some uc ->
  lastCheckAt uc = Some at_ ->
  Date_parse at_ = Some t ->
  checkIntervalSeconds uc = Some i ->
  i <= 0 ->
  t <= clock w ->
  exists r w',
    checkForUpdate options w = (Normal r, w')
    /\ cached r = false
    /\ fetchCount w' = S (fetchCount w).
Proof.
  intros Huc Hat Hp Hi Hneg Hpast.
  assert (Hskip : eval (shouldSkipCheck (update (stored w))) w = Normal false).
  { rewrite Huc. unfold eval, UpdateChecker.shouldSkipCheck. rewrite Hat.
    destruct (String.eqb at_ EmptyString); [reflexivity|].
    unfold mbind, Eff_bind, bind, Date_now, mret, Eff_ret, ret, getTime.
    rewrite Hp, Hi, elapsed_lt. cbn. f_equal. apply Z.ltb_ge. lia. }
  destruct (checkForUpdate_outcomes options w)
    as (c & Hc & [(Hn & Hskip' & _)
                 |(Hgate & v & w1 & Hf & Hst & Hen & Hwr & Hev & Hcase)]);
    [congruence|].
  destruct (count_after_fetch w w1 Hev) as [Hfc Hsc].
  destruct Hcase as [(-> & Hrun)
                    |[(tags & -> & Htag & Hrun)
                     |(tags & latest & -> & Htag & Hne & Hrun)]];
    rewrite Hrun; do 2 eexists; (split; [reflexivity|]); cbn; split; trivial.
  unfold fetchCount in *. destruct (writable w1); cbn; exact Hfc.
Qed.

(** A check that reaches the registry is not cached and has made one
    request. *)
Lemma reaching_fetches_once options w :
  reachesRegistry options w ->
  exists r w',
    checkForUpdate options w = (Normal r, w')
    /\ cached r = false
    /\ fetchCount w' = S (fetchCount w).
Proof.
  intros Hreach.
  destruct (checkForUpdate_outcomes options w)
    as (c & Hc & [(Hn & Hskip & _)
                 |(Hgate & v & w1 & Hf & Hst & Hen & Hwr & Hev & Hcase)]).
  { destruct Hreach; congruence. }
  destruct (count_after_fetch w w1 Hev) as [Hfc Hsc].
  destruct Hcase as [(-> & Hrun)
                    |[(tags & -> & Htag & Hrun)
                     |(tags & latest & -> & Htag & Hne & Hrun)]];
    rewrite Hrun; do 2 eexists; (split; [reflexivity|]); cbn; split; trivial.
  unfold fetchCount in *. destruct (writable w1); cbn; exact Hfc.
Qed.

(** X7. After a check that found a release and saved it, an unforced
    check is answered from the cache, with the same channel, version and
    verdict, for as long as the interval of the configuration has not
    elapsed since the save, and makes a request again from then on. The
    host [Date] is assumed to read back the time stamp it wrote. *)
Theorem saved_check_is_cached_for_the_interval options w r w' options2 later :
  checkForUpdate options w = (Normal r, w') ->
  cached r = false ->
  error r = None ->
  writable w = true ->
  Date_parse (Date_toISOString (clock w')) = Some (clock w') ->
  Date_toISOString (clock w') <> EmptyString ->
  notForced options2 = true ->
  (later - clock w' < 1000 * intervalOf (stored w) ->
   exists r2,
     checkForUpdate options2 (setClock later w') = (Normal r2, setClock later w')
     /\ cached r2 = true
     /\ resultChannel r2 = resultChannel r
     /\ latestVersion r2 = latestVersion r
     /\ updateAvailable r2 = updateAvailable r)
  /\ (1000 * intervalOf (stored w) <= later - clock w' ->
      exists r2 w2,
        checkForUpdate options2 (setClock later w') = (Normal r2, w2)
        /\ cached r2 = false
        /\ fetchCount w2 = S (fetchCount (setClock later w'))).
Proof.
  intros Hrun0 Hcached Herr Hw Hround Hiso Hn2.
  destruct (checkForUpdate_outcomes options w)
    as (c & Hc & [(Hn & Hskip & Hrun)
                 |(Hgate & v & w1 & Hf & Hst & Hen & Hwr & Hev & Hcase)]).
  { rewrite Hrun in Hrun0. injection Hrun0 as <- _. discriminate. }
  destruct Hcase as [(-> & Hrun)
                    |[(tags & -> & Htag & Hrun)
                     |(tags & latest & -> & Htag & Hne & Hrun)]];
    rewrite Hrun in Hrun0; injection Hrun0 as <- <-; try discriminate.
  clear Hcached Herr.
  rewrite Hwr, Hw in *. cbn [clock setStored record] in Hround, Hiso |- *.
  set (saved := withLastCheck (stored w) (Date_toISOString (clock w1)) latest) in *.
  set (w2 := setClock later (setStored saved (record (SaveCalled saved) w1))).
  set (uc2 := mkUpdateConfig (update (stored w) ≫= channel)
                (Some (Date_toISOString (clock w1))) (Some latest)
                (update (stored w) ≫= checkIntervalSeconds)).
  assert (Hup : update (stored w2) = Some uc2).
  { cbn. unfold uc2. destruct (update (stored w)); reflexivity. }
  assert (Hgate2 : shouldSkipCheck (update (stored w2)) w2
                   = (Normal (Z.ltb (later - clock w1)
                                (1000 * intervalOf (stored w))), w2)).
  { rewrite Hup.
    rewrite (shouldSkipCheck_parsed Date_parse uc2 (Date_toISOString (clock w1))
               (clock w1) w2 eq_refl Hiso Hround).
    reflexivity. }
  assert (Hc2 : eval (resolveChannel (update (stored w2))) w2 = Normal c).
  { rewrite <- Hc. apply resolveChannel_depends.
    - cbn. exact Hen.
    - rewrite Hup. reflexivity. }
  split.
  - intros Hin. apply Z.ltb_lt in Hin.
    assert (Hskip2 : eval (shouldSkipCheck (update (stored w2))) w2 = Normal true).
    { unfold eval. rewrite Hgate2, Hin. reflexivity. }
    rewrite (checkForUpdate_gate_fires options2 w2 c Hn2 Hskip2 Hc2).
    eexists. split; [reflexivity|]. rewrite Hup. cbn.
    repeat split.
    destruct (String.eqb_spec latest EmptyString) as [E|_]; [contradiction|].
    destruct (compareSemver VERSION latest); reflexivity.
  - intros Hout. apply Z.ltb_ge in Hout.
    apply reaching_fetches_once. right.
    unfold eval. fold w2. rewrite Hgate2, Hout. reflexivity.
Qed.

(** X8. A check that ended in an error leaves nothing behind that would
    stop the next one: when an unforced check failed, every later check
    makes its request again. *)
Theorem failed_check_is_retried options w r w' options2 later :
  checkForUpdate options w = (Normal r, w') ->
  notForced options = true ->
  error r <> None ->
  clock w <= later ->
  exists r2 w2,
    checkForUpdate options2 (setClock later w') = (Normal r2, w2)
    /\ cached r2 = false
    /\ fetchCount w2 = S (fetchCount (setClock later w')).
Proof.
  intros Hrun0 Hn Herr Hle.
  destruct (checkForUpdate_outcomes options w)
    as (c & Hc & [(_ & Hskip & Hrun)
                 |(Hgate & v & w1 & Hf & Hst & Hen & Hwr & Hev & Hcase)]).
  { rewrite Hrun in Hrun0. injection Hrun0 as <- _. contradiction. }
  assert (Hstale : eval (shouldSkipCheck (update (stored w))) w = Normal false).
  { destruct Hgate; [congruence|assumption]. }
  assert (Hw' : w' = w1).
  { destruct Hcase as [(-> & Hrun)
                      |[(tags & -> & Htag & Hrun)
                       |(tags & latest & -> & Htag & Hne & Hrun)]];
      rewrite Hrun in Hrun0; injection Hrun0 as <- <-; trivial.
    contradiction. }
  subst w'.
  apply reaching_fetches_once. right.
  cbn [stored setClock]. rewrite Hst.
  apply (shouldSkipCheck_false_later _ w); [exact Hle|exact Hstale].
Qed.

(** *** The registry client *)

Ltac run_fetch :=
  unfold fetchDistTags, mbind, Eff_bind, bind, abortAfter, try_finally, try_catch,
    fetch, json;
  cbn [registry setTimer clock record setClock].

(** X9. However the registry behaves, [fetchDistTags] is back at most
    8000 ms after it was called, and strictly sooner when it has a map to
    return; it has made one request, for the package on the registry with
    the abbreviated-metadata Accept header, and has left no timer
    pending. *)
Theorem fetchDistTags_bounded_wait w :
  exists v w',
    fetchDistTags w = (Normal v, w')
    /\ clock w' <= clock w + 8000
    /\ (v <> None -> clock w' < clock w + 8000)
    /\ timer w' = None
    /\ events w' =
         Fetched "https://registry.npmjs.org/milaidy"
           "application/vnd.npm.install-v1+json" :: events w.
Proof.
  run_fetch. unfold REGISTRY_TIMEOUT_MS.
  destruct (registry w) as [|after e|after r].
  - do 2 eexists. split; [reflexivity|]. cbn. repeat split; try lia. congruence.
  - destruct (Z.ltb_spec (clock w + after) (clock w + 8000));
      do 2 eexists; (split; [reflexivity|]); cbn; repeat split; try lia; congruence.
  - destruct (Z.ltb_spec (clock w + after) (clock w + 8000));
      [|do 2 eexists; (split; [reflexivity|]); cbn; repeat split; try lia; congruence].
    destruct (ok r); cbn;
      [|do 2 eexists; (split; [reflexivity|]); cbn; repeat split; try lia; congruence].
    destruct (Z.ltb_spec (clock w + after + bodyAfter r) (clock w + 8000));
      [|do 2 eexists; (split; [reflexivity|]); cbn; repeat split; try lia; congruence].
    destruct (body r) as [|[|tags]];
      do 2 eexists; (split; [reflexivity|]); cbn; repeat split; try lia; congruence.
Qed.

(** X10. [fetchDistTags] returns a map in one situation only: the
    registry answered with an ok response whose body parsed to a value
    with a ["dist-tags"] member, headers and body both in before the
    8000 ms were over; the map returned is that member. *)
Theorem fetchDistTags_success_iff w tags :
  eval fetchDistTags w = Normal (Some tags)
  <-> exists after r,
        registry w = Responds after r
        /\ ok r = true
        /\ body r = Parsed (JsonData (Some tags))
        /\ after < 8000
        /\ after + bodyAfter r < 8000.
Proof.
  unfold eval. run_fetch. unfold REGISTRY_TIMEOUT_MS.
  destruct (registry w) as [|after e|after r].
  - split; [discriminate|]. intros (a & r & H & _). discriminate.
  - split.
    + destruct (Z.ltb _ _); discriminate.
    + intros (a & r & H & _). discriminate.
  - destruct (Z.ltb_spec (clock w + after) (clock w + 8000)) as [Hin|Hout].
    + destruct (ok r) eqn:Hok; cbn.
      * destruct (Z.ltb_spec (clock w + after + bodyAfter r) (clock w + 8000))
          as [Hin2|Hout2].
        -- destruct (body r) as [|[|found]] eqn:Hbody; cbn.
           ++ split; [discriminate|].
              intros (a & r' & [= <- <-] & _ & Hb & _). congruence.
           ++ split; [discriminate|].
              intros (a & r' & [= <- <-] & _ & Hb & _). congruence.
           ++ split.
              ** intros [= ->]. exists after, r. repeat split; trivial; lia.
              ** intros (a & r' & [= <- <-] & _ & Hb & _). congruence.
        -- cbn. split; [discriminate|].
           intros (a & r' & [= <- <-] & _ & _ & _ & Hb). lia.
      * split; [discriminate|].
        intros (a & r' & [= <- <-] & Hok' & _). congruence.
    + cbn. split; [discriminate|].
      intros (a & r' & [= <- <-] & _ & _ & Ha & _). lia.
Qed.

(** A failing request gives null. *)
Lemma fetchDistTags_failure_null w :
  RegistryFailure (registry w) -> eval fetchDistTags w = Normal None.
Proof.
  intros Hfail. unfold eval. run_fetch.
  remember (registry w) as net eqn:Hreg.
  destruct Hfail as [| after r Hlate | after r Hlate
                     | after r Hok | after e | after r Hbody ];
    unfold REGISTRY_TIMEOUT_MS in *.
  - reflexivity.
  - destruct (Z.ltb_spec (clock w + after) (clock w + 8000)); [lia|reflexivity].
  - destruct (Z.ltb_spec (clock w + after) (clock w + 8000)); [|reflexivity].
    destruct (ok r); cbn; [|reflexivity].
    destruct (Z.ltb_spec (clock w + after + bodyAfter r) (clock w + 8000)); [lia|].
    reflexivity.
  - destruct (Z.ltb _ _); [|reflexivity]. rewrite Hok. reflexivity.
  - destruct (Z.ltb _ _); reflexivity.
  - destruct (Z.ltb _ _); [|reflexivity].
    destruct (ok r); cbn; [|reflexivity].
    destruct (Z.ltb _ _); [|reflexivity].
    rewrite Hbody. reflexivity.
Qed.

(** X11. [fetchAllChannelVersions] completes normally after exactly one
    request and no save, with the stored configuration untouched. The
    version it lists for a channel is the entry of the fetched map under
    the tag of that channel, null when there is none; on a failing
    request the three versions are null. *)
Theorem fetchAllChannelVersions_lists_tags w :
  exists versions w',
    fetchAllChannelVersions w = (Normal versions, w')
    /\ fetchCount w' = S (fetchCount w)
    /\ saveCount w' = saveCount w
    /\ stored w' = stored w
    /\ (forall v c,
          eval fetchDistTags w = Normal v ->
          versionOf c versions = v ≫= (.!! CHANNEL_DIST_TAGS c))
    /\ (RegistryFailure (registry w) -> versions = (None, None, None)).
Proof.
  destruct (fetchDistTags_total w) as (v & w1 & Hf & Hst & _ & _ & _ & Hev).
  destruct (count_after_fetch w w1 Hev) as [Hfc Hsc].
  unfold fetchAllChannelVersions. unfold mbind at 1. unfold Eff_bind, bind.
  rewrite Hf. do 2 eexists. split; [reflexivity|].
  repeat split; trivial.
  - intros v' c. unfold eval. rewrite Hf. cbn [fst]. intros [= <-].
    destruct c; reflexivity.
  - intros Hfail. apply fetchDistTags_failure_null in Hfail.
    unfold eval in Hfail. rewrite Hf in Hfail. cbn in Hfail.
    injection Hfail as ->. reflexivity.
Qed.

(** X12. The status listing and the check agree: the latest version of a
    check that reached the registry is what [fetchAllChannelVersions]
    lists in the same world for the resolved channel, except that the
    check reports an empty version as none. *)
Theorem check_agrees_with_channel_versions options w r w' versions w2 :
  reachesRegistry options w ->
  checkForUpdate options w = (Normal r, w') ->
  fetchAllChannelVersions w = (Normal versions, w2) ->
  latestVersion r =
    match versionOf (resultChannel r) versions with
    | Some v => if String.eqb v EmptyString then None else Some v
    | None => None
    end.
Proof.
  intros Hreach Hrun0 Hall.
  destruct (checkForUpdate_outcomes options w)
    as (c & Hc & [(Hn & Hskip & _)
                 |(Hgate & v & w1 & Hf & Hst & Hen & Hwr & Hev & Hcase)]).
  { destruct Hreach; congruence. }
  unfold fetchAllChannelVersions in Hall. unfold mbind at 1 in Hall.
  unfold Eff_bind, bind in Hall. rewrite Hf in Hall.
  injection Hall as <- _.
  assert (Hlookup : forall c0,
             versionOf c0 (v ≫= (.!! "latest"), v ≫= (.!! "beta"),
                           v ≫= (.!! "nightly"))
             = v ≫= (.!! CHANNEL_DIST_TAGS c0))
    by (intros c0; destruct c0; reflexivity).
  destruct Hcase as [(-> & Hrun)
                    |[(tags & -> & Htag & Hrun)
                     |(tags & latest & -> & Htag & Hne & Hrun)]];
    rewrite Hrun in Hrun0; injection Hrun0 as <- _;
    cbn [latestVersion resultChannel]; rewrite Hlookup; cbn.
  - destruct c; reflexivity.
  - destruct Htag as [-> | ->]; reflexivity.
  - rewrite Htag. destruct (String.eqb_spec latest EmptyString); [contradiction|].
    reflexivity.
Qed.

End Extras.

(** *** Sample runs *)

Lemma checkForUpdate_result_invariants_witness :
  exists r w',
    sampleCheck forced (freshWorld Hangs) = (Normal r, w')
    /\ error r <> None
    /\ latestVersion r = None /\ updateAvailable r = false /\ cached r = false.
Proof.
  destruct (checkForUpdate_result_invariants sampleVersion VersionCompat.compareSemver
              sampleDate_parse sampleDate_toISOString forced (freshWorld Hangs))
    as (r & w' & Hrun & _ & _ & _ & Herr & _).
  assert (He : error r <> None).
  { unfold sampleCheck in *. vm_compute in Hrun. injection Hrun as <- _. discriminate. }
  exists r, w'. split; [exact Hrun|]. split; [exact He|]. exact (Herr He).
Defined.

Lemma checkForUpdate_effects_witness :
  exists r w',
    sampleCheck None (freshWorld sampleRegistry) = (Normal r, w')
    /\ cached r = true
    /\ w' = freshWorld sampleRegistry.
Proof.
  destruct (checkForUpdate_effects sampleVersion VersionCompat.compareSemver
              sampleDate_parse sampleDate_toISOString None (freshWorld sampleRegistry))
    as (r & w' & Hrun & Hsame & _).
  assert (Hc : cached r = true).
  { unfold sampleCheck in *. vm_compute in Hrun. injection Hrun as <- _. reflexivity. }
  exists r, w'. split; [exact Hrun|]. split; [exact Hc|]. exact (Hsame Hc).
Defined.

Lemma forced_check_always_fetches_witness :
  exists r w',
    sampleCheck forced (freshWorld sampleRegistry) = (Normal r, w')
    /\ cached r = false
    /\ fetchCount w' = 1%nat.
Proof.
  apply (forced_check_always_fetches sampleVersion VersionCompat.compareSemver
           sampleDate_parse sampleDate_toISOString forced (freshWorld sampleRegistry)).
  reflexivity.
Defined.

Lemma gate_expiry_is_final_witness :
  let cfg := mkUpdateConfig None (Some "2026-02-08T12:00:00.000Z") None (Some 0) in
  eval (shouldSkipCheck sampleDate_parse (Some cfg))
    (setClock 1770552000150 (freshWorld Hangs)) = Normal false.
Proof.
  intros cfg.
  apply (gate_expiry_is_final sampleDate_parse (Some cfg) (freshWorld Hangs)
           (setClock 1770552000150 (freshWorld Hangs))).
  - cbn. lia.
  - reflexivity.
Defined.

Lemma zero_interval_disables_cache_witness :
  let cfg := mkUpdateConfig None (Some "2026-02-08T12:00:00.000Z") (Some "2.1.0")
               (Some 0) in
  let w := sampleWorld (mkMilaidyConfig (Some cfg) ∅) None true sampleRegistry in
  exists r w',
    sampleCheck None w = (Normal r, w')
    /\ cached r = false
    /\ fetchCount w' = 1%nat.
Proof.
  intros cfg w.
  apply (zero_interval_disables_cache sampleVersion VersionCompat.compareSemver
           sampleDate_parse sampleDate_toISOString None w cfg
           "2026-02-08T12:00:00.000Z" 1770552000000 0);
    solve [reflexivity | cbn; lia].
Defined.

Lemma saved_check_is_cached_for_the_interval_witness :
  let w' := exec (sampleCheck None) (staleWorld sampleRegistry) in
  exists r2,
    sampleCheck None (setClock 1770552060150 w') = (Normal r2, setClock 1770552060150 w')
    /\ cached r2 = true
    /\ resultChannel r2 = Stable
    /\ latestVersion r2 = Some "2.2.0"
    /\ updateAvailable r2 = true.
Proof.
  intros w'.
  apply (saved_check_is_cached_for_the_interval sampleVersion
           VersionCompat.compareSemver sampleDate_parse sampleDate_toISOString
           None (staleWorld sampleRegistry)
           (mkUpdateCheckResult true sampleVersion (Some "2.2.0") Stable "latest"
              false None)
           w' None 1770552060150);
    solve [reflexivity | discriminate | cbn; lia].
Defined.

Lemma failed_check_is_retried_witness :
  let w' := exec (sampleCheck None) (staleWorld Hangs) in
  exists r2 w2,
    sampleCheck None (setClock 1770552060000 w') = (Normal r2, w2)
    /\ cached r2 = false
    /\ fetchCount w2 = 2%nat.
Proof.
  intros w'.
  apply (failed_check_is_retried sampleVersion VersionCompat.compareSemver
           sampleDate_parse sampleDate_toISOString
           None (staleWorld Hangs)
           (mkUpdateCheckResult false sampleVersion None Stable "latest" false
              (Some unreachableMessage))
           w' None 1770552060000);
    solve [reflexivity | discriminate | cbn; lia].
Defined.

Lemma fetchDistTags_bounded_wait_witness :
  exists tags w',
    fetchDistTags (freshWorld sampleRegistry) = (Normal (Some tags), w')
    /\ clock w' < clock (freshWorld sampleRegistry) + 8000.
Proof.
  destruct (fetchDistTags_bounded_wait (freshWorld sampleRegistry))
    as (v & w' & Hrun & _ & Hlt & _).
  assert (Hv : v = Some sampleTags).
  { vm_compute in Hrun. injection Hrun as <- _. reflexivity. }
  subst v. exists sampleTags, w'. split; [exact Hrun|].
  apply Hlt. discriminate.
Defined.

Lemma fetchDistTags_success_iff_witness :
  eval fetchDistTags (freshWorld sampleRegistry) = Normal (Some sampleTags).
Proof.
  apply (fetchDistTags_success_iff (freshWorld sampleRegistry) sampleTags).
  exists 120, (mkResponse true 30 (Parsed (JsonData (Some sampleTags)))).
  repeat split; reflexivity.
Defined.

Lemma fetchAllChannelVersions_lists_tags_witness :
  exists versions w',
    fetchAllChannelVersions (freshWorld (Fails 40 AbortError)) = (Normal versions, w')
    /\ versions = (None, None, None).
Proof.
  destruct (fetchAllChannelVersions_lists_tags (freshWorld (Fails 40 AbortError)))
    as (versions & w' & Hrun & _ & _ & _ & _ & Hnull).
  exists versions, w'. split; [exact Hrun|].
  apply Hnull. apply failure_transport.
Defined.

Lemma check_agrees_with_channel_versions_witness :
  latestVersion
    (mkUpdateCheckResult true sampleVersion (Some "2.2.0") Stable "latest" false None)
  = match versionOf Stable (Some "2.2.0", Some "2.2.0-beta.1", None) with
    | Some v => if String.eqb v EmptyString then None else Some v
    | None => None
    end.
Proof.
  apply (check_agrees_with_channel_versions sampleVersion VersionCompat.compareSemver
           sampleDate_parse sampleDate_toISOString
           forced (freshWorld sampleRegistry)
           (mkUpdateCheckResult true sampleVersion (Some "2.2.0") Stable "latest"
              false None)
           (exec (sampleCheck forced) (freshWorld sampleRegistry))
           (Some "2.2.0", Some "2.2.0-beta.1", None)
           (exec fetchAllChannelVersions (freshWorld sampleRegistry)));
    solve [reflexivity | left; reflexivity].
Defined.

End CheckerExtras.

(** ** Further properties of the self-updater *)

Module UpdaterExtras.

Import SelfUpdater UpdaterSpec ExtraSpec UpdaterExtraSpec UpdaterFacts.

Ltac run_eff :=
  unfold mbind, Eff_bind, bind, try_catch, mret, Eff_ret, ret, execSync,
    realpathSync, readRootPackage.

(** *** Detection *)

Lemma truthy_false_cases v :
  truthy v = false <-> v = None \/ v = Some EmptyString.
Proof.
  unfold truthy. destruct v as [s|]; [|split; auto].
  destruct (String.eqb_spec s EmptyString) as [->|Hne]; cbn.
  - split; auto.
  - split; [discriminate|]. intros [H|[= H]]; congruence.
Qed.

(** X13. Without a binary on the PATH ([which] fails, or prints nothing
    but white space) the method is local-dev when the root manifest can
    be read and parsed and has a [devDependencies] member, and unknown in
    every other case. *)
Theorem detectInstallMethod_without_binary h :
  (forall out, shell h "which milaidy" = Normal out -> trim out = EmptyString) ->
  exists m,
    eval detectInstallMethod h = Normal m
    /\ (m = LocalDev \/ m = Unknown)
    /\ (m = LocalDev <->
        exists pkg deps,
          rootPackage h = Normal pkg /\ devDependencies pkg = Some deps).
Proof.
  intros Hnone.
  unfold eval, detectInstallMethod.
  unfold mbind at 1. unfold Eff_bind, bind. rewrite whichSync_run.
  assert (Hfalsy : truthy (match shell h "which milaidy" with
                           | Normal out => Some (trim out)
                           | Throw _ => None
                           end) = false).
  { apply truthy_false_cases.
    destruct (shell h "which milaidy") as [out|e] eqn:E; [|auto].
    right. rewrite (Hnone out eq_refl). reflexivity. }
  rewrite Hfalsy. cbn [negb].
  unfold isLocalDev. run_eff. cbn [rootPackage logged].
  destruct (rootPackage h) as [pkg|e]; cbn.
  - destruct (devDependencies pkg) as [deps|] eqn:Hd.
    + exists LocalDev. rewrite bool_decide_eq_true_2 by discriminate.
      repeat split; auto. intros _. exists pkg, deps. auto.
    + exists Unknown. rewrite bool_decide_eq_false_2 by (intros H; apply H; reflexivity).
      repeat split; auto; try discriminate.
      intros (pkg' & deps & [= <-] & Hd'). congruence.
  - exists Unknown. repeat split; auto; try discriminate.
    intros (pkg' & deps & H & _). discriminate.
Qed.

(** [startsWith] and [includes] say what their names say. *)
Lemma startsWith_spec p s :
  startsWith s p = true <-> exists post, s = p +:+ post.
Proof.
  unfold startsWith. revert s.
  induction p as [|a p IH]; intros s.
  - destruct s; cbn; split; eauto.
  - destruct s as [|b s]; cbn.
    + split; [discriminate|]. intros [post H]. discriminate.
    + destruct (Ascii.ascii_dec a b) as [->|Hne].
      * rewrite IH. split.
        -- intros [post ->]. eauto.
        -- intros [post [= ->]]. eauto.
      * split; [discriminate|]. intros [post [= H _]]. congruence.
Qed.

Lemma includes_spec sub s :
  includes s sub = true <-> exists pre post, s = pre +:+ sub +:+ post.
Proof.
  induction s as [|c s IH].
  - cbn [includes]. rewrite orb_false_r.
    change (String.prefix sub EmptyString) with (startsWith EmptyString sub).
    rewrite startsWith_spec. split.
    + intros [post H]. exists EmptyString, post. exact H.
    + intros (pre & post & H). destruct pre; [eauto|discriminate].
  - cbn [includes]. rewrite orb_true_iff, IH.
    change (String.prefix sub (String c s)) with (startsWith (String c s) sub).
    rewrite startsWith_spec. split.
    + intros [[post H]|(pre & post & ->)].
      * exists EmptyString, post. exact H.
      * exists (String c pre), post. reflexivity.
    + intros (pre & post & H). destruct pre as [|c' pre].
      * left. eauto.
      * right. injection H as _ ->. eauto.
Qed.

(** X14. With a binary on the PATH the method is never local-dev, and
    each answer has its reason in the resolved path: homebrew exactly when
    a Homebrew marker is in it; apt only under [/usr/] and outside
    node_modules; npm-global only inside node_modules; unknown only when
    the path is neither under [/usr/] nor inside node_modules and has no
    marker at all. *)
Theorem detected_method_is_justified h out m :
  shell h "which milaidy" = Normal out ->
  trim out <> EmptyString ->
  eval detectInstallMethod h = Normal m ->
  let p := resolvedPath h (trim out) in
  m <> LocalDev
  /\ (m = Homebrew <-> includes p "/Cellar/" = true \/ includes p "/homebrew/" = true)
  /\ (m = Apt -> startsWith p "/usr/" = true /\ includes p "node_modules" = false)
  /\ (m = NpmGlobal -> includes p "node_modules" = true)
  /\ (m = Unknown ->
      startsWith p "/usr/" = false /\ includes p "node_modules" = false
      /\ isInsideHomebrew p = false /\ isInsideSnap p = false
      /\ isInsideFlatpak p = false
      /\ includes p "/.bun/" = false /\ includes p "/pnpm/" = false).
Proof.
  intros Hwhich Hne Hm p.
  rewrite (detectInstallMethod_found h out Hwhich Hne) in Hm. fold p in Hm.
  injection Hm as <-.
  unfold firstMatch, classificationRules, isInsideHomebrew, isInsideSnap,
    isInsideFlatpak.
  destruct (includes p "/Cellar/"), (includes p "/homebrew/"),
    (includes p "/snap/"), (includes p "/flatpak/"),
    (includes p "ai.milady.Milaidy"), (startsWith p "/usr/"),
    (includes p "node_modules"), (includes p "/.bun/"), (includes p "/pnpm/");
    cbn; repeat split; try discriminate; auto; try (intros [?|?]; discriminate).
Qed.

(** X15. The markers are looked for anywhere in the resolved path: a
    [Cellar] or [homebrew] directory at any depth makes the install a
    Homebrew one, whatever comes before and after it. *)
Theorem homebrew_directory_anywhere h out pre post :
  shell h "which milaidy" = Normal out ->
  trim out <> EmptyString ->
  resolvedPath h (trim out) = pre +:+ "/Cellar/" +:+ post
  \/ resolvedPath h (trim out) = pre +:+ "/homebrew/" +:+ post ->
  eval detectInstallMethod h = Normal Homebrew.
Proof.
  intros Hwhich Hne Hpath.
  rewrite (detectInstallMethod_found h out Hwhich Hne).
  unfold firstMatch, classificationRules.
  assert (H : includes (resolvedPath h (trim out)) "/Cellar/"
              || includes (resolvedPath h (trim out)) "/homebrew/" = true).
  { apply orb_true_iff. destruct Hpath as [E|E]; [left|right];
      apply includes_spec; eauto. }
  rewrite H. reflexivity.
Qed.

(** *** Execution *)

(** What [performUpdate] does, by the method detected and the way the
    child ends. *)
Lemma performUpdate_unfold h currentVersion channel m :
  eval detectInstallMethod h = Normal m ->
  performUpdate currentVersion channel h =
    let h1 := logged [Executed "which milaidy"] h in
    match buildUpdateCommand m channel with
    | None =>
        (Normal (mkUpdateResult false m EmptyString currentVersion None
                   (Some (if decide (m = LocalDev) then localDevMessage
                          else noCommandMessage))), h1)
    | Some info =>
        let h2 := logged [Spawned (program info) (args info)] h1 in
        match child h (program info) (args info) with
        | SpawnError err =>
            (Normal (mkUpdateResult false m (commandLine info) currentVersion None
                       (Some (exitMessage 1 (message err)))), h2)
        | Closed code chunks =>
            let h3 := logged (rev (map StderrWritten chunks)) h2 in
            if Z.eqb (default 1 code) 0 then
              (Normal (mkUpdateResult true m (commandLine info) currentVersion
                         (versionRead h) None),
               logged [Executed "milaidy --version"] h3)
            else
              (Normal (mkUpdateResult false m (commandLine info) currentVersion None
                         (Some (exitMessage (default 1 code)
                                  (String.concat EmptyString chunks)))), h3)
        end
    end.
Proof.
  intros Hm.
  unfold performUpdate. unfold mbind at 1. unfold Eff_bind, bind.
  rewrite (detectInstallMethod_eval h m Hm).
  destruct (buildUpdateCommand m channel) as [info|]; [|reflexivity].
  unfold mbind at 1. unfold Eff_bind, bind, runCommand.
  cbn [child logged].
  destruct (child h (program info) (args info)) as [err|code chunks];
    [reflexivity|].
  cbn zeta. destruct (Z.eqb (default 1 code) 0); cbn [negb]; [|reflexivity].
  unfold readPostUpdateVersion, versionRead. run_eff. cbn [shell logged].
  destruct (shell h "milaidy --version"); reflexivity.
Qed.

Lemma buildUpdateCommand_none_iff m channel :
  buildUpdateCommand m channel = None <-> m = LocalDev.
Proof. destruct m; cbn; split; congruence. Qed.

Lemma detectInstallMethod_evals h : exists m, eval detectInstallMethod h = Normal m.
Proof.
  destruct (detectInstallMethod_total h) as [m Hm]. exists m.
  unfold eval. rewrite Hm. reflexivity.
Qed.

(** X16. Every update attempt completes normally with a result for the
    method detected and the version it was given. It is a success exactly
    when it has no error, and only a success has a new version. A
    local-dev install gets the refusal that points to git, with no
    command; every other method gets the command line of its table
    entry. *)
Theorem performUpdate_result_invariants h currentVersion channel :
  exists r h',
    performUpdate currentVersion channel h = (Normal r, h')
    /\ eval detectInstallMethod h = Normal (method r)
    /\ previousVersion r = currentVersion
    /\ (success r = true <-> error r = None)
    /\ (newVersion r <> None -> success r = true)
    /\ (method r = LocalDev ->
        command r = EmptyString /\ success r = false
        /\ error r =
             Some "Cannot auto-update a local development install. Use git pull instead.")
    /\ (method r <> LocalDev ->
        exists info,
          buildUpdateCommand (method r) channel = Some info
          /\ command r = program info +:+ " " +:+ join " " (args info)).
Proof.
  destruct (detectInstallMethod_evals h) as [m Hm].
  rewrite (performUpdate_unfold h currentVersion channel m Hm). cbn zeta.
  destruct (buildUpdateCommand m channel) as [info|] eqn:Hcmd.
  - assert (Hnot : m <> LocalDev).
    { intros ->. discriminate. }
    destruct (child h (program info) (args info)) as [err|code chunks].
    + do 2 eexists. split; [reflexivity|]. cbn.
      repeat split; trivial; try discriminate; try contradiction.
      intros _. exists info. auto.
    + destruct (Z.eqb (default 1 code) 0);
        do 2 eexists; (split; [reflexivity|]); cbn;
        repeat split; trivial; try discriminate; try contradiction;
        intros _; exists info; auto.
  - apply buildUpdateCommand_none_iff in Hcmd. subst m.
    do 2 eexists. split; [reflexivity|]. cbn.
    repeat split; trivial; try discriminate; try contradiction.
Qed.

Lemma stderr_writes_are_no_command chunks commandLine :
  ~ In (Executed commandLine) (rev (map StderrWritten chunks)).
Proof.
  rewrite <- List.in_rev, List.in_map_iff. intros (chunk & H & _). discriminate.
Qed.

(** X17. What an update attempt runs. After [which milaidy], a local-dev
    install runs nothing at all; any other method spawns exactly one
    child, the program and arguments of its table entry. The version is
    read back with [milaidy --version] exactly when the attempt is a
    success. *)
Theorem performUpdate_runs_the_built_command h currentVersion channel :
  exists r h' es,
    performUpdate currentVersion channel h = (Normal r, h')
    /\ log h' = (es ++ log h)%list
    /\ (method r = LocalDev -> es = [Executed "which milaidy"])
    /\ (forall info,
          buildUpdateCommand (method r) channel = Some info ->
          List.filter isSpawn es = [Spawned (program info) (args info)])
    /\ (In (Executed "milaidy --version") es <-> success r = true).
Proof.
  destruct (detectInstallMethod_evals h) as [m Hm].
  rewrite (performUpdate_unfold h currentVersion channel m Hm). cbn zeta.
  destruct (buildUpdateCommand m channel) as [info|] eqn:Hcmd.
  - assert (Hnot : m <> LocalDev).
    { intros ->. discriminate. }
    destruct (child h (program info) (args info)) as [err|code chunks].
    + exists (mkUpdateResult false m (commandLine info) currentVersion None
                (Some (exitMessage 1 (message err)))),
        (logged [Spawned (program info) (args info)]
           (logged [Executed "which milaidy"] h)),
        [Spawned (program info) (args info); Executed "which milaidy"].
      split; [reflexivity|]. cbn [method success log logged].
      repeat split; trivial; try contradiction.
      * rewrite Hcmd. intros info' [= <-]. reflexivity.
      * intros [H|[H|[]]]; discriminate.
      * discriminate.
    + destruct (Z.eqb (default 1 code) 0).
      * exists (mkUpdateResult true m (commandLine info) currentVersion
                  (versionRead h) None),
          (logged [Executed "milaidy --version"]
             (logged (rev (map StderrWritten chunks))
                (logged [Spawned (program info) (args info)]
                   (logged [Executed "which milaidy"] h)))),
          (Executed "milaidy --version" :: rev (map StderrWritten chunks)
             ++ [Spawned (program info) (args info); Executed "which milaidy"])%list.
        split; [reflexivity|]. cbn [method success log logged].
        split; [cbn; rewrite <- !List.app_assoc; reflexivity|].
        repeat split; trivial; try contradiction.
        -- rewrite Hcmd. intros info' [= <-]. cbn [List.filter isSpawn].
           rewrite List.filter_app, stderr_writes_spawn_nothing. reflexivity.
        -- left. reflexivity.
      * exists (mkUpdateResult false m (commandLine info) currentVersion None
                  (Some (exitMessage (default 1 code)
                           (String.concat EmptyString chunks)))),
          (logged (rev (map StderrWritten chunks))
             (logged [Spawned (program info) (args info)]
                (logged [Executed "which milaidy"] h))),
          (rev (map StderrWritten chunks)
             ++ [Spawned (program info) (args info); Executed "which milaidy"])%list.
        split; [reflexivity|]. cbn [method success log logged].
        split; [cbn; rewrite <- !List.app_assoc; reflexivity|].
        repeat split; trivial; try contradiction.
        -- rewrite Hcmd. intros info' [= <-].
           rewrite List.filter_app, stderr_writes_spawn_nothing. reflexivity.
        -- intros Hin. apply List.in_app_or in Hin. destruct Hin as [Hin|Hin].
           ++ exfalso. exact (stderr_writes_are_no_command _ _ Hin).
           ++ destruct Hin as [H|[H|[]]]; discriminate.
        -- discriminate.
  - apply buildUpdateCommand_none_iff in Hcmd. subst m.
    exists (mkUpdateResult false LocalDev EmptyString currentVersion None
              (Some localDevMessage)),
      (logged [Executed "which milaidy"] h), [Executed "which milaidy"].
    split; [reflexivity|]. cbn [method success log logged].
    repeat split; trivial.
    + discriminate.
    + intros [H|[]]. discriminate.
    + discriminate.
Qed.

(** X18. [runCommand] always completes normally, after one spawn. It
    reports code 0 only for a child that closed with code 0. The text it
    reports for a closed child is the chunks of stderr in the order they
    came, each of which was forwarded; for a child that could not be
    spawned it is the message of the error, with code 1. *)
Theorem runCommand_reports h program args :
  exists code text h',
    runCommand program args h = (Normal (code, text), h')
    /\ spawnCount h' = S (spawnCount h)
    /\ (code = 0 <-> exists chunks, child h program args = Closed (Some 0) chunks)
    /\ (forall exit chunks,
          child h program args = Closed exit chunks ->
          code = default 1 exit
          /\ text = String.concat EmptyString chunks
          /\ log h' = (rev (map StderrWritten chunks) ++ Spawned program args :: log h)%list)
    /\ (forall err,
          child h program args = SpawnError err ->
          code = 1 /\ text = message err
          /\ log h' = Spawned program args :: log h).
Proof.
  unfold runCommand.
  destruct (child h program args) as [err|exit chunks] eqn:Hchild.
  - do 3 eexists. split; [reflexivity|].
    split; [reflexivity|].
    split; [split; [discriminate|intros [chunks H]; discriminate]|].
    split; [discriminate|].
    intros err' [= <-]. repeat split.
  - do 3 eexists. split; [reflexivity|].
    split; [rewrite !spawnCount_logged, stderr_writes_spawn_nothing; reflexivity|].
    split; [|split; [|discriminate]].
    + split.
      * destruct exit as [code|]; cbn; [|discriminate]. intros ->. eauto.
      * intros [chunks' [= -> _]]. reflexivity.
    + intros exit' chunks' [= <- <-]. repeat split.
Qed.

(** *** Reading the version back *)

Lemma append_assoc (a b c : string) : (a +:+ b) +:+ c = a +:+ b +:+ c.
Proof.
  induction a as [|x a IH]; [reflexivity|].
  change (String x ((a +:+ b) +:+ c) = String x (a +:+ b +:+ c)).
  rewrite IH. reflexivity.
Qed.

Lemma append_empty_r (a : string) : a +:+ EmptyString = a.
Proof.
  induction a as [|x a IH]; [reflexivity|].
  change (String x (a +:+ EmptyString) = String x a).
  rewrite IH. reflexivity.
Qed.

Lemma span_spec p s a r :
  span p s = (a, r) -> s = a +:+ r /\ allChars p a = true /\ stopsAt p r.
Proof.
  revert a r. induction s as [|c s IH]; intros a r; cbn.
  - intros [= <- <-]. repeat split.
  - destruct (p c) eqn:Hp.
    + destruct (span p s) as [taken others].
      intros [= <- <-]. destruct (IH taken others eq_refl) as (-> & Hall & Hstop).
      cbn. rewrite Hp, Hall. repeat split. exact Hstop.
    + intros [= <- <-]. cbn. repeat split. exact Hp.
Qed.

Lemma span_run p a r :
  allChars p a = true -> stopsAt p r -> span p (a +:+ r) = (a, r).
Proof.
  intros Hall Hstop. induction a as [|c a IH].
  - change (span p r = (EmptyString, r)).
    destruct r as [|x r]; [reflexivity|]. simpl in *. rewrite Hstop. reflexivity.
  - change (span p (String c (a +:+ r)) = (String c a, r)).
    simpl in *. apply andb_true_iff in Hall as [Hc Ha].
    rewrite Hc, (IH Ha). reflexivity.
Qed.

Lemma digits1_spec s a r :
  digits1 s = Some (a, r) ->
  s = a +:+ r /\ isNumber a /\ stopsAt VersionCompat.isDigit r.
Proof.
  unfold digits1. destruct (span VersionCompat.isDigit s) as [taken others] eqn:E.
  apply span_spec in E as (Hs & Hall & Hstop).
  destruct taken as [|c taken]; [discriminate|].
  intros [= <- <-]. repeat split; trivial. discriminate.
Qed.

Lemma digits1_run a r :
  isNumber a -> stopsAt VersionCompat.isDigit r -> digits1 (a +:+ r) = Some (a, r).
Proof.
  intros [Hne Hall] Hstop. unfold digits1. rewrite (span_run _ a r Hall Hstop).
  destruct a; [contradiction|reflexivity].
Qed.

Lemma dot_spec s r : dot s = Some r -> s = "." +:+ r.
Proof.
  destruct s as [|c s]; cbn; [discriminate|].
  destruct (Ascii.eqb_spec c "."); [|discriminate]. intros [= <-]. subst. reflexivity.
Qed.

Lemma matchAt_spec s v :
  matchAt s = Some v -> exists post, s = v +:+ post /\ versionShaped v.
Proof.
  unfold matchAt, mbind, option_bind.
  destruct (digits1 s) as [[a s1]|] eqn:E1; [|discriminate].
  destruct (dot s1) as [s2|] eqn:E2; [|discriminate].
  destruct (digits1 s2) as [[b s3]|] eqn:E3; [|discriminate].
  destruct (dot s3) as [s4|] eqn:E4; [|discriminate].
  destruct (digits1 s4) as [[c s5]|] eqn:E5; [|discriminate].
  apply digits1_spec in E1 as (-> & Ha & _).
  apply dot_spec in E2 as ->.
  apply digits1_spec in E3 as (-> & Hb & _).
  apply dot_spec in E4 as ->.
  apply digits1_spec in E5 as (-> & Hc & _).
  assert (Hcore : forall post,
             a +:+ "." +:+ b +:+ "." +:+ c +:+ post
             = (a +:+ "." +:+ b +:+ "." +:+ c) +:+ post).
  { intros post. rewrite !append_assoc. reflexivity. }
  assert (Hplain : exists post,
             a +:+ "." +:+ b +:+ "." +:+ c +:+ s5
             = (a +:+ "." +:+ b +:+ "." +:+ c) +:+ post
             /\ versionShaped (a +:+ "." +:+ b +:+ "." +:+ c)).
  { exists s5. split; [apply Hcore|]. exists a, b, c. auto. }
  destruct s5 as [|h rest]; [intros [= <-]; exact Hplain|].
  destruct (Ascii.eqb_spec h "-") as [->|_]; [|intros [= <-]; exact Hplain].
  destruct (span (fun x => isWordChar x || Ascii.eqb x ".") rest)
    as [pre others] eqn:Epre.
  apply span_spec in Epre as (-> & Hall & _).
  destruct pre as [|x pre]; [intros [= <-]; exact Hplain|].
  intros [= <-]. exists others. split.
  - rewrite !append_assoc. reflexivity.
  - exists a, b, c. repeat split; try apply Ha; try apply Hb; try apply Hc.
    right. exists (String x pre). repeat split; [discriminate|exact Hall|].
    rewrite !append_assoc. reflexivity.
Qed.

Lemma matchAt_needs_a_digit c s :
  VersionCompat.isDigit c = false -> matchAt (String c s) = None.
Proof.
  intros Hc. unfold matchAt, mbind, option_bind, digits1. cbn [span].
  rewrite Hc. reflexivity.
Qed.

(** X19. What is read back as the new version is a piece of what
    [milaidy --version] printed, and it has the shape of a version: three
    runs of digits joined by dots, then possibly a hyphen and a run of
    word characters and dots. Output without a digit gives no version. *)
Theorem firstSemver_finds_a_version s :
  (forall v,
      firstSemver s = Some v ->
      versionShaped v /\ exists pre post, s = pre +:+ v +:+ post)
  /\ (allChars (fun c => negb (VersionCompat.isDigit c)) s = true ->
      firstSemver s = None).
Proof.
  split.
  - induction s as [|c s IH]; intros v.
    + cbn. discriminate.
    + cbn [firstSemver].
      destruct (matchAt (String c s)) as [found|] eqn:E.
      * intros [= <-]. apply matchAt_spec in E as (post & Hs & Hshape).
        split; [exact Hshape|]. exists EmptyString, post. exact Hs.
      * intros Hrest. destruct (IH v Hrest) as (Hshape & pre & post & ->).
        split; [exact Hshape|]. exists (String c pre), post. reflexivity.
  - induction s as [|c s IH]; [reflexivity|].
    cbn [allChars firstSemver]. intros Hall.
    apply andb_true_iff in Hall as [Hc Hs]. apply negb_true_iff in Hc.
    rewrite (matchAt_needs_a_digit c s Hc). exact (IH Hs).
Qed.

Lemma matchAt_core a b c post :
  isNumber a -> isNumber b -> isNumber c ->
  stopsAt VersionCompat.isDigit post ->
  matchAt (a +:+ "." +:+ b +:+ "." +:+ c +:+ post) =
    Some match post with
         | String h rest =>
             if Ascii.eqb h "-" then
               match span isWordOrDot rest with
               | (EmptyString, _) => a +:+ "." +:+ b +:+ "." +:+ c
               | (pre, _) => (a +:+ "." +:+ b +:+ "." +:+ c) +:+ "-" +:+ pre
               end
             else a +:+ "." +:+ b +:+ "." +:+ c
         | EmptyString => a +:+ "." +:+ b +:+ "." +:+ c
         end.
Proof.
  intros Ha Hb Hc Hpost. unfold matchAt, mbind, option_bind.
  rewrite (digits1_run a ("." +:+ b +:+ "." +:+ c +:+ post) Ha eq_refl).
  change (dot ("." +:+ b +:+ "." +:+ c +:+ post)) with (Some (b +:+ "." +:+ c +:+ post)).
  cbn iota beta.
  rewrite (digits1_run b ("." +:+ c +:+ post) Hb eq_refl).
  change (dot ("." +:+ c +:+ post)) with (Some (c +:+ post)).
  cbn iota beta.
  rewrite (digits1_run c post Hc Hpost).
  reflexivity.
Qed.

(** X20. A version is found behind any prefix without digits, such as the
    program name and a slash: a plain [a.b.c] that is not followed by a
    digit or a hyphen is read back as it is, and so is [a.b.c-pre] when
    [pre] is a run of word characters and dots that ends there. *)
Theorem firstSemver_skips_prefix prefix a b c :
  allChars (fun ch => negb (VersionCompat.isDigit ch)) prefix = true ->
  isNumber a -> isNumber b -> isNumber c ->
  (forall post,
      stopsAt (fun ch => VersionCompat.isDigit ch || Ascii.eqb ch "-") post ->
      firstSemver (prefix +:+ a +:+ "." +:+ b +:+ "." +:+ c +:+ post)
      = Some (a +:+ "." +:+ b +:+ "." +:+ c))
  /\ (forall pre post,
        pre <> EmptyString -> allChars isWordOrDot pre = true ->
        stopsAt isWordOrDot post ->
        firstSemver (prefix +:+ a +:+ "." +:+ b +:+ "." +:+ c +:+ "-" +:+ pre +:+ post)
        = Some (a +:+ "." +:+ b +:+ "." +:+ c +:+ "-" +:+ pre)).
Proof.
  intros Hprefix Ha Hb Hc.
  assert (Hskip : forall rest found,
             matchAt (a +:+ rest) = Some found ->
             firstSemver (prefix +:+ a +:+ rest) = Some found).
  { intros rest found Hfound.
    induction prefix as [|ch prefix IH].
    - change (firstSemver (a +:+ rest) = Some found).
      destruct (a +:+ rest); cbn [firstSemver]; rewrite Hfound; reflexivity.
    - change (firstSemver (String ch (prefix +:+ a +:+ rest)) = Some found).
      cbn [allChars] in Hprefix.
      apply andb_true_iff in Hprefix as [Hch Hrest]. apply negb_true_iff in Hch.
      cbn [firstSemver]. rewrite (matchAt_needs_a_digit ch _ Hch).
      exact (IH Hrest). }
  split.
  - intros post Hpost. apply Hskip.
    assert (Hdigit : stopsAt VersionCompat.isDigit post).
    { destruct post as [|h rest]; [exact I|]. cbn in *.
      apply orb_false_iff in Hpost as [H _]. exact H. }
    rewrite (matchAt_core a b c post Ha Hb Hc Hdigit).
    destruct post as [|h rest]; [reflexivity|].
    cbn in Hpost. apply orb_false_iff in Hpost as [_ H]. rewrite H. reflexivity.
  - intros pre post Hne Hall Hpost. apply Hskip.
    rewrite (matchAt_core a b c ("-" +:+ pre +:+ post) Ha Hb Hc eq_refl).
    change ("-" +:+ pre +:+ post) with (String "-" (pre +:+ post)).
    cbn iota beta. change (Ascii.eqb "-" "-") with true. cbn iota.
    rewrite (span_run isWordOrDot pre post Hall Hpost).
    destruct pre as [|x pre]; [contradiction|].
    rewrite !append_assoc. reflexivity.
Qed.

(** *** The command table, by channel *)

(** X21. Which commands depend on the channel. For brew, apt and flatpak
    the channel makes no difference; for npm, bun, pnpm, snap and the npm
    fallback of an unknown method, two different channels give two
    different commands. Only local-dev has no command. *)
Theorem buildUpdateCommand_channel_sensitivity m c1 c2 :
  (m = Homebrew \/ m = Apt \/ m = Flatpak ->
   buildUpdateCommand m c1 = buildUpdateCommand m c2)
  /\ (m = NpmGlobal \/ m = BunGlobal \/ m = PnpmGlobal \/ m = Snap \/ m = Unknown ->
      c1 <> c2 -> buildUpdateCommand m c1 <> buildUpdateCommand m c2)
  /\ (buildUpdateCommand m c1 = None <-> m = LocalDev).
Proof.
  split; [|split].
  - intros [ -> | [ -> | -> ] ]; reflexivity.
  - intros [ -> | [ -> | [ -> | [ -> | -> ] ] ] ] Hne; destruct c1, c2;
      try contradiction; discriminate.
  - apply buildUpdateCommand_none_iff.
Qed.

(** X22. A binary found on the PATH is always updated through a package
    manager: one child is spawned whatever the resolved path looks like,
    and when the path matches no rule that child is the npm install of
    the package spec of the channel. *)
Theorem found_binary_is_always_updated h out currentVersion channel :
  shell h "which milaidy" = Normal out ->
  trim out <> EmptyString ->
  exists r h',
    performUpdate currentVersion channel h = (Normal r, h')
    /\ spawnCount h' = S (spawnCount h)
    /\ command r <> EmptyString
    /\ (firstMatch classificationRules (resolvedPath h (trim out)) = Unknown ->
        method r = Unknown
        /\ command r = "npm install -g " +:+ packageSpec channel).
Proof.
  intros Hwhich Hne.
  pose proof (detectInstallMethod_found h out Hwhich Hne) as Hm.
  set (m := firstMatch classificationRules (resolvedPath h (trim out))) in *.
  assert (Hnot : m <> LocalDev).
  { unfold m, firstMatch, classificationRules.
    repeat match goal with
           | |- context [if ?b then _ else _] => destruct b
           end; discriminate. }
  rewrite (performUpdate_unfold h currentVersion channel m Hm). cbn zeta.
  destruct (buildUpdateCommand m channel) as [info|] eqn:Hcmd;
    [|apply buildUpdateCommand_none_iff in Hcmd; contradiction].
  assert (Hline : commandLine info <> EmptyString).
  { unfold commandLine. destruct (program info); discriminate. }
  assert (Hnpm : m = Unknown ->
                 commandLine info = "npm install -g " +:+ packageSpec channel).
  { intros E. rewrite E in Hcmd. destruct channel; injection Hcmd as <-; reflexivity. }
  destruct (child h (program info) (args info)) as [err|code chunks].
  - do 2 eexists. split; [reflexivity|]. cbn [command method].
    repeat split; auto.
  - destruct (Z.eqb (default 1 code) 0);
      do 2 eexists; (split; [reflexivity|]); cbn [command method];
      (split; [rewrite !spawnCount_logged, stderr_writes_spawn_nothing; reflexivity|]);
      repeat split; auto.
Qed.

(** *** Sample runs *)

Lemma detectInstallMethod_without_binary_witness :
  eval detectInstallMethod
    (sourceHost (Normal (mkPackageJson (Some {[ "vitest" := "^4.0.0" ]}))))
  = Normal LocalDev.
Proof.
  destruct (detectInstallMethod_without_binary
              (sourceHost (Normal (mkPackageJson (Some {[ "vitest" := "^4.0.0" ]})))))
    as (m & Hm & _ & Hiff).
  - intros out H. discriminate.
  - rewrite Hm. f_equal. apply Hiff.
    exists (mkPackageJson (Some {[ "vitest" := "^4.0.0" ]})), {[ "vitest" := "^4.0.0" ]}.
    split; reflexivity.
Defined.

Lemma detected_method_is_justified_witness :
  startsWith "/usr/bin/milaidy" "/usr/" = true
  /\ includes "/usr/bin/milaidy" "node_modules" = false.
Proof.
  apply (detected_method_is_justified
           (sampleHost "/usr/bin/milaidy" "/usr/bin/milaidy" (Closed (Some 0) [])
              (Throw notFound))
           "/usr/bin/milaidy " Apt);
    solve [reflexivity | discriminate].
Defined.

Lemma homebrew_directory_anywhere_witness :
  eval detectInstallMethod
    (sampleHost "/home/linuxbrew/.linuxbrew/bin/milaidy"
       "/home/linuxbrew/.linuxbrew/Cellar/milaidy/2.0.0/bin/milaidy"
       (Closed (Some 0) []) (Throw notFound))
  = Normal Homebrew.
Proof.
  apply (homebrew_directory_anywhere
           (sampleHost "/home/linuxbrew/.linuxbrew/bin/milaidy"
              "/home/linuxbrew/.linuxbrew/Cellar/milaidy/2.0.0/bin/milaidy"
              (Closed (Some 0) []) (Throw notFound))
           "/home/linuxbrew/.linuxbrew/bin/milaidy "
           "/home/linuxbrew/.linuxbrew" "milaidy/2.0.0/bin/milaidy").
  - reflexivity.
  - discriminate.
  - left. reflexivity.
Defined.

Lemma performUpdate_result_invariants_witness :
  exists r h',
    performUpdate "2.0.0-alpha.7" Beta
      (sourceHost (Normal (mkPackageJson (Some ∅)))) = (Normal r, h')
    /\ command r = EmptyString
    /\ success r = false
    /\ error r =
         Some "Cannot auto-update a local development install. Use git pull instead.".
Proof.
  destruct (performUpdate_result_invariants
              (sourceHost (Normal (mkPackageJson (Some ∅)))) "2.0.0-alpha.7" Beta)
    as (r & h' & Hrun & Hm & _ & _ & _ & Hdev & _).
  exists r, h'. split; [exact Hrun|]. apply Hdev.
  assert (E : eval detectInstallMethod (sourceHost (Normal (mkPackageJson (Some ∅))))
              = Normal LocalDev) by reflexivity.
  rewrite E in Hm. injection Hm as Hm. symmetry. exact Hm.
Defined.

Lemma performUpdate_runs_the_built_command_witness :
  exists r h' es,
    performUpdate "2.0.0-alpha.7" Stable
      (sampleHost "/usr/local/bin/milaidy"
         "/usr/local/lib/node_modules/milaidy/milaidy.mjs"
         (Closed (Some 0) ["warning"]) (Normal "milaidy/2.1.0"))
    = (Normal r, h')
    /\ log h' = es
    /\ List.filter isSpawn es = [Spawned "npm" ["install"; "-g"; "milaidy@latest"]].
Proof.
  destruct (performUpdate_runs_the_built_command
              (sampleHost "/usr/local/bin/milaidy"
                 "/usr/local/lib/node_modules/milaidy/milaidy.mjs"
                 (Closed (Some 0) ["warning"]) (Normal "milaidy/2.1.0"))
              "2.0.0-alpha.7" Stable)
    as (r & h' & es & Hrun & Hlog & _ & Hspawn & _).
  exists r, h', es. split; [exact Hrun|].
  split; [rewrite Hlog; apply List.app_nil_r|].
  apply (Hspawn (mkCommandInfo "npm" ["install"; "-g"; "milaidy@latest"])).
  vm_compute in Hrun. injection Hrun as <- _. reflexivity.
Defined.

Lemma runCommand_reports_witness :
  exists code text h',
    runCommand "brew" ["upgrade"; "milaidy"]
      (sampleHost "/opt/homebrew/bin/milaidy"
         "/opt/homebrew/Cellar/milaidy/2.0.0/bin/milaidy"
         (Closed None ["Error: "; "interrupted"]) (Throw notFound))
    = (Normal (code, text), h')
    /\ code = 1
    /\ text = "Error: interrupted".
Proof.
  destruct (runCommand_reports
              (sampleHost "/opt/homebrew/bin/milaidy"
                 "/opt/homebrew/Cellar/milaidy/2.0.0/bin/milaidy"
                 (Closed None ["Error: "; "interrupted"]) (Throw notFound))
              "brew" ["upgrade"; "milaidy"])
    as (code & text & h' & Hrun & _ & _ & Hclosed & _).
  destruct (Hclosed None ["Error: "; "interrupted"] eq_refl) as (Hcode & Htext & _).
  exists code, text, h'. repeat split; assumption.
Defined.

Lemma firstSemver_finds_a_version_witness :
  versionShaped "2.1.0-nightly.20260208"
  /\ exists pre post,
      "milaidy/2.1.0-nightly.20260208 linux-x64"
      = pre +:+ "2.1.0-nightly.20260208" +:+ post.
Proof.
  apply (proj1 (firstSemver_finds_a_version "milaidy/2.1.0-nightly.20260208 linux-x64")).
  reflexivity.
Defined.

Lemma firstSemver_skips_prefix_witness :
  firstSemver "milaidy/2.0.0 (stable)" = Some "2.0.0".
Proof.
  assert (Hnum : forall d, VersionCompat.isDigit d = true ->
                           isNumber (String d EmptyString)).
  { intros d Hd. split; [discriminate|]. cbn. rewrite Hd. reflexivity. }
  pose proof (firstSemver_skips_prefix "milaidy/" "2" "0" "0") as H.
  specialize (H eq_refl (Hnum "2"%char eq_refl) (Hnum "0"%char eq_refl)
                (Hnum "0"%char eq_refl)).
  destruct H as [H _].
  specialize (H " (stable)" eq_refl).
  simpl String.append in H. exact H.
Defined.

Lemma buildUpdateCommand_channel_sensitivity_witness :
  buildUpdateCommand Snap Beta <> buildUpdateCommand Snap Nightly
  /\ buildUpdateCommand Homebrew Beta = buildUpdateCommand Homebrew Nightly.
Proof.
  split.
  - apply (proj1 (proj2 (buildUpdateCommand_channel_sensitivity Snap Beta Nightly))).
    + right. right. right. left. reflexivity.
    + discriminate.
  - apply (proj1 (buildUpdateCommand_channel_sensitivity Homebrew Beta Nightly)).
    left. reflexivity.
Defined.

Lemma found_binary_is_always_updated_witness :
  exists r h',
    performUpdate "2.0.0-alpha.7" Nightly
      (sampleHost "/opt/tools/milaidy" "/opt/tools/milaidy" (Closed (Some 0) [])
         (Normal "2.1.0-nightly.1"))
    = (Normal r, h')
    /\ spawnCount h' = 1%nat
    /\ method r = Unknown
    /\ command r = "npm install -g milaidy@nightly".
Proof.
  destruct (found_binary_is_always_updated
              (sampleHost "/opt/tools/milaidy" "/opt/tools/milaidy" (Closed (Some 0) [])
                 (Normal "2.1.0-nightly.1"))
              "/opt/tools/milaidy " "2.0.0-alpha.7" Nightly)
    as (r & h' & Hrun & Hcount & _ & Hnpm).
  - reflexivity.
  - discriminate.
  - destruct (Hnpm eq_refl) as [Hm Hc].
    exists r, h'. repeat split; assumption.
Defined.

End UpdaterExtras.

(** ** White space *)

Module JsFacts.

Import Js.

(** A leading white space code point is stripped, whatever follows. *)
Lemma trimStart_strips w s :
  In w whiteSpaces -> trimStart (w +:+ s) = trimStart s.
Proof.
  intros H. unfold whiteSpaces in H. cbn [map] in H.
  repeat (destruct H as [<-|H]; [reflexivity|]). destruct H.
Qed.

(** The second and third bytes of an encoding are continuation bytes. *)
Lemma twoByteWhiteSpace_continues a b :
  twoByteWhiteSpace a b = true -> continues b = true.
Proof.
  unfold twoByteWhiteSpace, continues.
  intros H. apply andb_true_iff in H as [_ H]. apply N.eqb_eq in H. subst b.
  reflexivity.
Qed.

Lemma threeByteWhiteSpace_continues a b c :
  threeByteWhiteSpace a b c = true -> continues c = true.
Proof.
  unfold threeByteWhiteSpace, continues. intros H.
  assert (Hc : (128 <= c <= 191)%N).
  { destruct a as [|a]; [discriminate|].
    repeat (destruct a as [a|a|]; try discriminate);
      destruct b as [|b]; try discriminate;
      repeat (destruct b as [b|b|]; try discriminate);
      repeat match goal with
             | H : (_ || _)%bool = true |- _ => apply orb_true_iff in H as [H|H]
             | H : (_ && _)%bool = true |- _ => apply andb_true_iff in H as [? H]
             | H : (_ =? _)%N = true |- _ => apply N.eqb_eq in H
             | H : (_ <=? _)%N = true |- _ => apply N.leb_le in H
             end; lia. }
  apply andb_true_iff. split; apply N.leb_le; lia.
Qed.

(** A white space code point starts with a byte that continues nothing
    and is not itself the second byte of NBSP. *)
Lemma whiteSpace_starts w :
  In w whiteSpaces ->
  exists h t, w = String h t /\ continues (N_of_ascii h) = false.
Proof.
  intros H. unfold whiteSpaces in H. cbn [map] in H.
  repeat (destruct H as [<-|H]; [do 2 eexists; split; reflexivity|]). destruct H.
Qed.

Lemma whiteSpace_is_stripped w : In w whiteSpaces -> trimStart w = EmptyString.
Proof.
  intros H. unfold whiteSpaces in H. cbn [map] in H.
  repeat (destruct H as [<-|H]; [reflexivity|]). destruct H.
Qed.

(** Appending a white space code point does not change whether a string
    is white space only. *)
Lemma blank_append w s :
  In w whiteSpaces ->
  (trimStart (s +:+ w) = EmptyString <-> trimStart s = EmptyString).
Proof.
  intros Hw.
  destruct (whiteSpace_starts w Hw) as (h & t & Hshape & Hh).
  assert (Hbound : forall n s, (String.length s <= n)%nat ->
             (trimStart (s +:+ w) = EmptyString <-> trimStart s = EmptyString)).
  { clear s. induction n as [|n IH]; intros s Hlen.
    - destruct s; [|cbn in Hlen; lia].
      change (EmptyString +:+ w) with w.
      rewrite (whiteSpace_is_stripped w Hw). split; reflexivity.
    - destruct s as [|c1 r1].
      + change (EmptyString +:+ w) with w.
        rewrite (whiteSpace_is_stripped w Hw). split; reflexivity.
      + cbn in Hlen.
        change (String c1 r1 +:+ w) with (String c1 (r1 +:+ w)).
        cbn [trimStart].
        destruct (oneByteWhiteSpace (N_of_ascii c1)); [apply IH; lia|].
        destruct r1 as [|c2 r2].
        * change (EmptyString +:+ w) with w. rewrite Hshape. cbn iota.
          destruct (twoByteWhiteSpace (N_of_ascii c1) (N_of_ascii h)) eqn:E2.
          { apply twoByteWhiteSpace_continues in E2. congruence. }
          destruct t as [|h2 t2]; [split; discriminate|].
          destruct (threeByteWhiteSpace _ _ _) eqn:E3; [|split; discriminate].
          exfalso. clear - E3 Hw Hshape.
          unfold whiteSpaces in Hw. cbn [map] in Hw. subst w.
          repeat (destruct Hw as [Hw|Hw];
                  [try discriminate; injection Hw as <- <- <-;
                   revert E3; unfold threeByteWhiteSpace;
                   destruct (N_of_ascii c1) as [|p]; try discriminate;
                   repeat (destruct p as [p|p|]; try discriminate)|]).
          destruct Hw.
        * cbn in Hlen.
          change (String c2 r2 +:+ w) with (String c2 (r2 +:+ w)).
          cbn iota.
          destruct (twoByteWhiteSpace (N_of_ascii c1) (N_of_ascii c2));
            [apply IH; lia|].
          destruct r2 as [|c3 r3].
          -- change (EmptyString +:+ w) with w. rewrite Hshape. cbn iota.
             destruct (threeByteWhiteSpace _ _ (N_of_ascii h)) eqn:E3;
               [|split; discriminate].
             apply threeByteWhiteSpace_continues in E3. congruence.
          -- cbn in Hlen.
             change (String c3 r3 +:+ w) with (String c3 (r3 +:+ w)).
             cbn iota.
             destruct (threeByteWhiteSpace _ _ _); [apply IH; lia|].
             split; discriminate. }
  apply (Hbound (String.length s)). lia.
Qed.

(** A trailing white space code point is stripped, whatever precedes. *)
Lemma trimEnd_strips w s :
  In w whiteSpaces -> trimEnd (s +:+ w) = trimEnd s.
Proof.
  intros Hw. induction s as [|c rest IH].
  - change (EmptyString +:+ w) with w.
    destruct (whiteSpace_starts w Hw) as (h & t & Hshape & _).
    pose proof (whiteSpace_is_stripped w Hw) as Hblank.
    rewrite Hshape in *. cbn [trimEnd]. rewrite Hblank. reflexivity.
  - change (String c rest +:+ w) with (String c (rest +:+ w)).
    cbn [trimEnd]. rewrite IH.
    pose proof (blank_append w (String c rest) Hw) as Hiff.
    change (String c rest +:+ w) with (String c (rest +:+ w)) in Hiff.
    destruct (trimStart (String c (rest +:+ w))) eqn:E1;
      destruct (trimStart (String c rest)) eqn:E2; trivial.
    + destruct Hiff as [H _]. specialize (H eq_refl). discriminate.
    + destruct Hiff as [_ H]. specialize (H eq_refl). discriminate.
Qed.

Lemma trimStart_strips_run pre s :
  Forall (fun x => In x whiteSpaces) pre ->
  trimStart (String.concat EmptyString pre +:+ s) = trimStart s.
Proof.
  induction 1 as [|w pre Hw _ IH]; [reflexivity|].
  assert (E : String.concat EmptyString (w :: pre) +:+ s
              = w +:+ String.concat EmptyString pre +:+ s).
  { destruct pre as [|x pre]; cbn [String.concat].
    - reflexivity.
    - clear. induction w as [|c w IHw]; [reflexivity|].
      change (String c ((w +:+ EmptyString +:+ String.concat EmptyString (x :: pre)) +:+ s)
              = String c (w +:+ String.concat EmptyString (x :: pre) +:+ s)).
      f_equal. exact IHw. }
  rewrite E, (trimStart_strips w _ Hw). exact IH.
Qed.
Lemma string_append_assoc (a b c : string) : (a +:+ b) +:+ c = a +:+ b +:+ c.
Proof.
  induction a as [|x a IH]; [reflexivity|].
  change (String x ((a +:+ b) +:+ c) = String x (a +:+ b +:+ c)).
  rewrite IH. reflexivity.
Qed.

Lemma trimEnd_strips_run post s :
  Forall (fun x => In x whiteSpaces) post ->
  trimEnd (s +:+ String.concat EmptyString post) = trimEnd s.
Proof.
  intros H. revert s. induction H as [|w post Hw _ IH]; intros s.
  - cbn [String.concat]. clear. induction s as [|c s IHs]; [reflexivity|].
    change (String c s +:+ EmptyString) with (String c (s +:+ EmptyString)).
    assert (E : s +:+ EmptyString = s).
    { clear. induction s as [|c s IHs]; [reflexivity|].
      change (String c (s +:+ EmptyString) = String c s). rewrite IHs. reflexivity. }
    rewrite E. reflexivity.
  - assert (E : s +:+ String.concat EmptyString (w :: post)
                = (s +:+ w) +:+ String.concat EmptyString post).
    { rewrite string_append_assoc. f_equal.
      destruct post as [|x post]; cbn [String.concat].
      - clear. induction w as [|c w IHw]; [reflexivity|].
        change (String c w = String c (w +:+ EmptyString)). f_equal. exact IHw.
      - reflexivity. }
    rewrite E, IH. apply trimEnd_strips, Hw.
Qed.

(** A word of ASCII letters has no white space to strip. *)
Lemma letter_stays c r : isLetter c = true -> trimStart (String c r) = String c r.
Proof.
  destruct c as [b0 b1 b2 b3 b4 b5 b6 b7].
  destruct b0, b1, b2, b3, b4, b5, b6, b7; try discriminate; intros _;
    destruct r as [|c2 [|c3 r3]]; reflexivity.
Qed.

Lemma letters_trimEnd s : lettersOnly s = true -> trimEnd s = s.
Proof.
  induction s as [|c s IH]; [reflexivity|].
  cbn [lettersOnly]. intros H. apply andb_true_iff in H as [Hc Hs].
  cbn [trimEnd]. rewrite (letter_stays c s Hc), (IH Hs). reflexivity.
Qed.

Lemma lowerChar_letter c : isLetter (lowerChar c) = true -> isLetter c = true.
Proof.
  destruct c as [b0 b1 b2 b3 b4 b5 b6 b7].
  destruct b0, b1, b2, b3, b4, b5, b6, b7; intros H; first [exact H | reflexivity].
Qed.

Lemma toLowerCase_letters s :
  lettersOnly (toLowerCase s) = true -> lettersOnly s = true.
Proof.
  induction s as [|c s IH]; [reflexivity|].
  cbn [toLowerCase lettersOnly]. intros H. apply andb_true_iff in H as [Hc Hs].
  rewrite (lowerChar_letter c Hc), (IH Hs). reflexivity.
Qed.

(** Runs of white space around a word of letters are all that [trim]
    removes. *)
Lemma trim_word pre word post :
  Forall (fun x => In x whiteSpaces) pre ->
  Forall (fun x => In x whiteSpaces) post ->
  word <> EmptyString ->
  lettersOnly word = true ->
  trim (String.concat EmptyString pre +:+ word
        +:+ String.concat EmptyString post) = word.
Proof.
  intros Hpre Hpost Hne Hword. unfold trim.
  rewrite (trimStart_strips_run pre _ Hpre).
  destruct word as [|c word]; [contradiction|].
  cbn [lettersOnly] in Hword. apply andb_true_iff in Hword as [Hc Hrest].
  change (String c word +:+ String.concat EmptyString post)
    with (String c (word +:+ String.concat EmptyString post)).
  rewrite (letter_stays c _ Hc).
  change (String c (word +:+ String.concat EmptyString post))
    with (String c word +:+ String.concat EmptyString post).
  rewrite (trimEnd_strips_run post _ Hpost).
  apply letters_trimEnd. cbn [lettersOnly]. rewrite Hc, Hrest. reflexivity.
Qed.

End JsFacts.

(** ** The override of the channel, in any dress *)

Module OverrideFacts.

Import Js UpdateChecker CheckerSpec JsFacts.

(** X23. The override of the environment is recognised in any letter
    case and with any run of white space of the ECMAScript kind before
    and after it, NBSP and the Unicode spaces included: the channel it
    names is the result, whatever the configuration says. *)
Theorem resolveChannel_ignores_case_and_white_space uc w c pre word post :
  Forall (fun x => In x whiteSpaces) pre ->
  Forall (fun x => In x whiteSpaces) post ->
  toLowerCase word = channelName c ->
  env w !! "MILAIDY_UPDATE_CHANNEL"
    = Some (String.concat EmptyString pre +:+ word
            +:+ String.concat EmptyString post) ->
  resolveChannel uc w = (Normal c, w).
Proof.
  intros Hpre Hpost Hname Henv.
  assert (Hletters : lettersOnly word = true).
  { apply toLowerCase_letters. rewrite Hname. destruct c; reflexivity. }
  assert (Hne : word <> EmptyString).
  { intros ->. destruct c; discriminate. }
  unfold resolveChannel, mbind, Eff_bind, bind, process_env, mret, Eff_ret, ret.
  rewrite Henv. cbn [fmap option_fmap option_map].
  rewrite (trim_word pre word post Hpre Hpost Hne Hletters), Hname.
  destruct c; reflexivity.
Qed.

Ltac in_white_spaces :=
  unfold whiteSpaces; cbn [map In]; repeat (first [left; reflexivity | right]).

Lemma resolveChannel_ignores_case_and_white_space_witness :
  let w := sampleWorld (sampleConfig EmptyString)
             (Some (nbsp +:+ " " +:+ "Beta" +:+ ofBytes [226; 128; 168]%N +:+ nbsp))
             true Hangs in
  resolveChannel (Some (mkUpdateConfig (Some Nightly) None None None)) w
  = (Normal Beta, w).
Proof.
  intros w.
  apply (resolveChannel_ignores_case_and_white_space _ w Beta
           [nbsp; " "] "Beta" [ofBytes [226; 128; 168]%N; nbsp]).
  - constructor; [in_white_spaces | constructor; [in_white_spaces | constructor]].
  - constructor; [in_white_spaces | constructor; [in_white_spaces | constructor]].
  - reflexivity.
  - reflexivity.
Defined.

End OverrideFacts.

(** The white space of ECMAScript, and what is not: [trim] on a word
    between two of each. *)
Module WhiteSpaceSamples.

Import Js.

Example trim_strips_each_white_space :
  forallb (fun x => String.eqb (trim (x +:+ x +:+ "a b" +:+ x +:+ x)) "a b")
    whiteSpaces = true.
Proof. vm_compute. reflexivity. Qed.

Example trim_keeps_what_is_no_white_space :
  forallb (fun x => String.eqb (trim (x +:+ "a" +:+ x)) (x +:+ "a" +:+ x))
    notWhiteSpaces = true.
Proof. vm_compute. reflexivity. Qed.

Example trim_blank : trim (" " +:+ nbsp +:+ " ") = EmptyString.
Proof. reflexivity. Qed.

End WhiteSpaceSamples.
